(** * CashPilot AI: risk scoring and the MIP-003 job protocol

    A shallow embedding of
      - [src/agents/risk_guardian/risk_models.py] (class [RiskAnalyzer]),
      - [src/agents/risk_guardian/agent.py] ([RiskGuardianAgent.assess_strategy]),
      - [src/agents/simple_agents.py] ([SimpleRiskAgent.execute]),
      - [src/masumi_integration/payment_service.py] ([poll_for_funds_locked]),
      - [src/api/routes/mip003.py] (job store, [start_job], [cancel_job],
        [provide_additional_input], [poll_payment_status]).

    Conventions of the embedding.
      - Python numbers ([int] and [float] alike) are exact rationals [Q];
        the rounding error of IEEE doubles is outside the model.  Results
        are therefore compared with [==] ([Qeq]).
      - A Python [dict] is a [gmap string _]; [d.get(k, v)] is
        [default v (d !! k)].
      - A Python function that may raise returns [outcome A]: [Ok a] for a
        normal return, [Raise e] for an exception that leaves the function.
      - [datetime.utcnow()] is a timestamp handed to each operation;
        [uuid.uuid4()] is an identifier handed to [start_job].
      - The asyncio event loop is cooperative: the code between two [await]s
        runs without interleaving, so each such stretch is one transition. *)

From Stdlib Require Import QArith Qround Qminmax Lqa.
From stdpp Require Import gmap strings list fin_maps.

(** ** Python values, exceptions and the error monad *)

Module Py.

#[local] Open Scope Q_scope.

(** Scalar values that a JSON payload can put in a field.  A JSON boolean is
    the number 0 or 1, as in Python where [bool] is a subclass of [int]. *)
Inductive pyval : Type :=
  | PNone
  | PNum (q : Q)
  | PStr (s : string).

Inductive exn_class : Type :=
  | TypeError
  | AttributeError
  | KeyError
  | RuntimeError.

(** An exception: its class and the text that [str(e)] gives. *)
Record exn : Type := MkExn { exn_cls : exn_class; exn_str : string }.

Inductive outcome (A : Type) : Type :=
  | Ok (a : A)
  | Raise (e : exn).
Arguments Ok {A} a.
Arguments Raise {A} e.

Definition bind {A B : Type} (m : outcome A) (k : A -> outcome B) : outcome B :=
  match m with
  | Ok a => k a
  | Raise e => Raise e
  end.

#[global] Instance outcome_ret : MRet outcome := fun A a => Ok a.
#[global] Instance outcome_bind : MBind outcome := fun A B k m => bind m k.

(** Name of the run-time type, as it appears in CPython's messages (the
    model does not tell [int] from [float]). *)
Definition type_name (v : pyval) : string :=
  match v with
  | PNone => "NoneType"
  | PNum _ => "int"
  | PStr _ => "str"
  end.

Definition type_error_binop (op : string) (a b : pyval) : exn :=
  MkExn TypeError
    ("'" +:+ op +:+ "' not supported between instances of '" +:+ type_name a
       +:+ "' and '" +:+ type_name b +:+ "'").

Definition type_error_operand (op : string) (left right : string) : exn :=
  MkExn TypeError
    ("unsupported operand type(s) for " +:+ op +:+ ": '" +:+ left
       +:+ "' and '" +:+ right +:+ "'").

Definition attribute_error (v : pyval) (attr : string) : exn :=
  MkExn AttributeError
    ("'" +:+ type_name v +:+ "' object has no attribute '" +:+ attr +:+ "'").

(** [d.get(k, dflt)] *)
Definition get (d : gmap string pyval) (k : string) (dflt : pyval) : pyval :=
  default dflt (d !! k).

(** Strict comparison on rationals as a boolean: [a < b]. *)
Definition Qltb (a b : Q) : bool := negb (Qle_bool b a).

(** [a > b] on Python values: numbers with numbers, strings with strings
    (lexicographic), anything else is a [TypeError]. *)
Definition gt (a b : pyval) : outcome bool :=
  match a, b with
  | PNum x, PNum y => Ok (Qltb y x)
  | PStr s, PStr t => Ok (String.ltb t s)
  | _, _ => Raise (type_error_binop ">" a b)
  end.

(** [a < n] and [a > n] against a numeric literal [n]. *)
Definition lt_num (a : pyval) (n : Q) : outcome bool :=
  match a with
  | PNum x => Ok (Qltb x n)
  | _ => Raise (type_error_binop "<" a (PNum n))
  end.

Definition gt_num (a : pyval) (n : Q) : outcome bool :=
  match a with
  | PNum x => Ok (Qltb n x)
  | _ => Raise (type_error_binop ">" a (PNum n))
  end.

(** [v ** 2] *)
Definition pow2 (v : pyval) : outcome Q :=
  match v with
  | PNum x => Ok (x * x)
  | _ => Raise (type_error_operand "** or pow()" (type_name v) "int")
  end.

(** [v / n] for a numeric literal [n]. *)
Definition div_num (v : pyval) (n : Q) : outcome Q :=
  match v with
  | PNum x => Ok (x / n)
  | _ => Raise (type_error_operand "/" (type_name v) "int")
  end.

(** [v - y] for a float [y]. *)
Definition sub_num (v : pyval) (y : Q) : outcome Q :=
  match v with
  | PNum x => Ok (x - y)
  | _ => Raise (type_error_operand "-" (type_name v) "float")
  end.

(** [v * w] for a float [w]: a string times a float is an error too. *)
Definition mul_num (v : pyval) (w : Q) : outcome Q :=
  match v with
  | PNum x => Ok (x * w)
  | PStr _ => Raise (MkExn TypeError "can't multiply sequence by non-int of type 'float'")
  | PNone => Raise (type_error_operand "*" (type_name v) "float")
  end.

(** [acc + v] for a numeric accumulator, as [sum] does. *)
Definition add_num (acc : Q) (v : pyval) : outcome Q :=
  match v with
  | PNum x => Ok (acc + x)
  | _ => Raise (type_error_operand "+" "int" (type_name v))
  end.

(** [v.lower()] *)
Definition lower_ascii (c : Ascii.ascii) : Ascii.ascii :=
  let n := Ascii.nat_of_ascii c in
  if (65 <=? n)%nat && (n <=? 90)%nat then Ascii.ascii_of_nat (n + 32) else c.

Fixpoint lower_string (s : string) : string :=
  match s with
  | EmptyString => EmptyString
  | String c s' => String (lower_ascii c) (lower_string s')
  end.

Definition lower (v : pyval) : outcome string :=
  match v with
  | PStr s => Ok (lower_string s)
  | _ => Raise (attribute_error v "lower")
  end.

(** [a == b], the equality that [set] and [in] use. *)
Definition eqb (a b : pyval) : bool :=
  match a, b with
  | PNone, PNone => true
  | PNum x, PNum y => Qeq_bool x y
  | PStr s, PStr t => String.eqb s t
  | _, _ => false
  end.

(** [set(vs)]: the elements of [vs] up to [==], one of each. *)
Fixpoint distinct (vs : list pyval) : list pyval :=
  match vs with
  | [] => []
  | v :: vs' =>
      let rest := distinct vs' in
      if existsb (eqb v) rest then rest else v :: rest
  end.

(** [max(it)] over a non-empty iterable: the running maximum is replaced by
    an item that compares greater. *)
Fixpoint max_from (cur : pyval) (vs : list pyval) : outcome pyval :=
  match vs with
  | [] => Ok cur
  | v :: vs' =>
      b ← gt v cur;
      max_from (if (b : bool) then v else cur) vs'
  end.

(** [min(a, b)] and [max(a, b)] on numbers: the first argument wins ties. *)
Definition min2 (a b : Q) : Q := if Qltb b a then b else a.
Definition max2 (a b : Q) : Q := if Qltb a b then b else a.

(** [round(x, 1)]: to one decimal, ties to even. *)
Definition round_half_even (x : Q) : Z :=
  let f := Qfloor x in
  let r := x - inject_Z f in
  match Qcompare r (1 # 2) with
  | Lt => f
  | Gt => (f + 1)%Z
  | Eq => if Z.even f then f else (f + 1)%Z
  end.

Definition round1 (x : Q) : Q := inject_Z (round_half_even (x * 10)) / 10.

(** [len(l)] as a number. *)
Definition len {A : Type} (l : list A) : Q := inject_Z (Z.of_nat (length l)).

End Py.

Abbreviation dict := (gmap string Py.pyval).

(** ** [risk_models.py]: class [RiskAnalyzer] *)

Module RiskModels.

Import Py.
#[local] Open Scope Q_scope.

(** [self.protocol_risk_ratings] *)
Definition protocol_risk_ratings : gmap string Q :=
  list_to_map
    [ ("minswap"%string, 25); ("sundaeswap"%string, 30);
      ("liqwid"%string, 35); ("indigo"%string, 40);
      ("muesliswap"%string, 35); ("wingriders"%string, 30) ].

(** [sum(f(a) for a in l)], started at [acc]: the generator is consumed
    item by item, so the first failing item raises. *)
Fixpoint sum_with (f : dict -> outcome Q) (acc : Q) (l : list dict) : outcome Q :=
  match l with
  | [] => Ok acc
  | a :: l' => x ← f a; sum_with f (acc + x) l'
  end.

(** [sum(vs)] for arbitrary items: [acc + v] fails on a non-number. *)
Fixpoint sum_values (acc : Q) (vs : list pyval) : outcome Q :=
  match vs with
  | [] => Ok acc
  | v :: vs' => acc' ← add_num acc v; sum_values acc' vs'
  end.

(** [sum(l)] for a list of numbers. *)
Definition sum_list (l : list Q) : Q := fold_left Qplus l 0.

Definition allocation_percent (alloc : dict) : pyval :=
  get alloc "allocation_percent" (PNum 0).

Definition _calculate_concentration_risk (allocations : list dict) : outcome Q :=
  match allocations with
  | [] => Ok 0
  | first :: rest =>
      max_allocation ← max_from (allocation_percent first)
                                (map allocation_percent rest);
      hhi ← sum_with (fun alloc => pow2 (allocation_percent alloc)) 0 allocations;
      let concentration_risk := hhi / 100 in
      Ok (min2 concentration_risk 100)
  end.

(** The body of the [for] loop of [_calculate_protocol_risk], iterated. *)
Fixpoint protocol_risk_loop (allocations : list dict) (total_risk total_weight : Q)
  : outcome (Q * Q) :=
  match allocations with
  | [] => Ok (total_risk, total_weight)
  | alloc :: rest =>
      protocol ← lower (get alloc "protocol" (PStr ""));
      weight ← div_num (allocation_percent alloc) 100;
      let base_risk := default 50 (protocol_risk_ratings !! protocol) in
      let position_risk := get alloc "risk_score" (PNum base_risk) in
      contribution ← mul_num position_risk weight;
      protocol_risk_loop rest (total_risk + contribution) (total_weight + weight)
  end.

Definition _calculate_protocol_risk (allocations : list dict) : outcome Q :=
  match allocations with
  | [] => Ok 0
  | _ =>
      totals ← protocol_risk_loop allocations 0 0;
      let '(total_risk, total_weight) := totals in
      if Qeq_bool total_weight 0 then Ok 0
      else Ok (total_risk / total_weight)
  end.

(** The [if]/[elif] ladder on one allocation's APR. *)
Definition apr_score (apr : pyval) : outcome Q :=
  b100 ← gt_num apr 100;
  if (b100 : bool) then Ok 80 else
  b50 ← gt_num apr 50;
  if (b50 : bool) then Ok 60 else
  b30 ← gt_num apr 30;
  if (b30 : bool) then Ok 40 else
  b15 ← gt_num apr 15;
  if (b15 : bool) then Ok 20 else Ok 10.

Fixpoint apr_scores (allocations : list dict) : outcome (list Q) :=
  match allocations with
  | [] => Ok []
  | alloc :: rest =>
      s ← apr_score (get alloc "expected_apr" (PNum 0));
      ss ← apr_scores rest;
      Ok (s :: ss)
  end.

Definition _calculate_apr_risk (allocations : list dict) : outcome Q :=
  match allocations with
  | [] => Ok 0
  | _ =>
      risk_scores ← apr_scores allocations;
      match risk_scores with
      | [] => Ok 0
      | _ => Ok (sum_list risk_scores / len risk_scores)
      end
  end.

Definition _calculate_diversification (allocations : list dict) : outcome Q :=
  match allocations with
  | [] => Ok 0
  | _ =>
      let num_positions := length allocations in
      let protocols :=
        distinct (map (fun alloc => default PNone (alloc !! "protocol")) allocations) in
      let num_protocols := length protocols in
      balance_score ←
        (if (num_positions =? 1)%nat then Ok 0
         else
           let ideal_allocation := 100 / len allocations in
           squares ← sum_with
                       (fun alloc =>
                          d ← sub_num (allocation_percent alloc) ideal_allocation;
                          Ok (d * d))
                       0 allocations;
           let variance := squares / len allocations in
           Ok (max2 0 (100 - variance)));
      let diversification :=
        (len protocols / 5) * 40 + (len allocations / 5) * 30
        + (balance_score / 100) * 30 in
      Ok (min2 diversification 100)
  end.

(** The dictionary that [analyze_strategy] returns.  The three strings of
    ["risk_breakdown"] print the unrounded sub-scores with one decimal; the
    record keeps the number that is printed. *)
Record RiskAnalysis : Type := MkRiskAnalysis {
  overall_risk_score : Q;
  concentration_risk : Q;
  protocol_risk : Q;
  apr_risk : Q;
  diversification_score : Q;
  warnings : list string;
  recommendations : list string;
  risk_breakdown : Q * Q * Q
}.

(** A strategy: the keys the analysis and the agent read.  [None] is an
    absent key. *)
Record Strategy : Type := MkStrategy {
  strategy_id : option string;
  recommended_allocations : option (list dict)
}.

Definition overall_risk (concentration protocol apr : Q) : Q :=
  concentration * (3 # 10) + protocol * (4 # 10) + apr * (3 # 10).

Definition when (b : bool) (msg : string) : list string :=
  if b then [msg] else [].

(** [analyze_strategy]: the [except] clause logs and re-raises, so an
    exception of the body leaves the function unchanged. *)
Definition analyze_strategy (strategy : Strategy) : outcome RiskAnalysis :=
  let allocations := default [] (recommended_allocations strategy) in
  concentration ← _calculate_concentration_risk allocations;
  protocol ← _calculate_protocol_risk allocations;
  apr ← _calculate_apr_risk allocations;
  diversification ← _calculate_diversification allocations;
  let overall := overall_risk concentration protocol apr in
  let warnings :=
    when (Qltb 60 concentration)
      "High concentration risk: Portfolio not well diversified"
    ++ when (Qltb 50 protocol) "High protocol risk: Consider safer protocols"
    ++ when (Qltb 60 apr) "Unusually high APRs detected: Possible high risk" in
  let recommendations :=
    when (Qltb 40 concentration) "Increase diversification across protocols"
    ++ when (Qltb 50 overall) "Consider reducing risk exposure" in
  Ok {| overall_risk_score := round1 overall;
        concentration_risk := round1 concentration;
        protocol_risk := round1 protocol;
        apr_risk := round1 apr;
        diversification_score := round1 diversification;
        warnings := warnings;
        recommendations := recommendations;
        risk_breakdown := (round1 concentration, round1 protocol, round1 apr) |}.

(** One position's liquidity score. *)
Definition position_liquidity_risk (pos : dict) : outcome Q :=
  let tvl := get pos "tvl_ada" (PNum 0) in
  let volume_24h := get pos "volume_24h" (PNum 0) in
  tvl_risk ←
    (b1 ← lt_num tvl 50000;
     if (b1 : bool) then Ok 80 else
     b2 ← lt_num tvl 100000;
     if (b2 : bool) then Ok 60 else
     b3 ← lt_num tvl 500000;
     if (b3 : bool) then Ok 40 else Ok 20);
  volume_risk ←
    (c1 ← lt_num volume_24h 10000;
     if (c1 : bool) then Ok 60 else
     c2 ← lt_num volume_24h 50000;
     if (c2 : bool) then Ok 30 else Ok 10);
  Ok ((tvl_risk + volume_risk) / 2).

Fixpoint liquidity_scores (positions : list dict) : outcome (list Q) :=
  match positions with
  | [] => Ok []
  | pos :: rest =>
      s ← position_liquidity_risk pos;
      ss ← liquidity_scores rest;
      Ok (s :: ss)
  end.

Definition _calculate_liquidity_risk (positions : list dict) : outcome Q :=
  match positions with
  | [] => Ok 0
  | _ =>
      risk_scores ← liquidity_scores positions;
      match risk_scores with
      | [] => Ok 0
      | _ => Ok (sum_list risk_scores / len risk_scores)
      end
  end.

(** The dictionary that [analyze_portfolio_health] returns; [None] is a key
    the dictionary does not have. *)
Record HealthReport : Type := MkHealthReport {
  overall_health_score : Q;
  health_concentration_risk : option Q;
  health_liquidity_risk : option Q;
  num_positions : option nat;
  total_value_ada : option Q;
  health_error : option string
}.

Record Portfolio : Type := MkPortfolio {
  positions : option (list dict)
}.

(** The [try] block of [analyze_portfolio_health]. *)
Definition analyze_portfolio_health_body (portfolio : Portfolio) : outcome HealthReport :=
  let positions := default [] (positions portfolio) in
  concentration ← _calculate_concentration_risk positions;
  liquidity ← _calculate_liquidity_risk positions;
  let overall_health := 100 - (concentration * (1 # 2) + liquidity * (1 # 2)) in
  total_value ← sum_values 0 (map (fun pos => get pos "value_ada" (PNum 0)) positions);
  Ok {| overall_health_score := round1 overall_health;
        health_concentration_risk := Some (round1 concentration);
        health_liquidity_risk := Some (round1 liquidity);
        num_positions := Some (length positions);
        total_value_ada := Some total_value;
        health_error := None |}.

(** [analyze_portfolio_health]: the [except] clause turns any exception of
    the body into a report. *)
Definition analyze_portfolio_health (portfolio : Portfolio) : outcome HealthReport :=
  match analyze_portfolio_health_body portfolio with
  | Ok report => Ok report
  | Raise e =>
      Ok {| overall_health_score := 0;
            health_concentration_risk := None;
            health_liquidity_risk := None;
            num_positions := None;
            total_value_ada := None;
            health_error := Some (exn_str e) |}
  end.

(** The dictionary that [validate_transaction] returns. *)
Record Validation : Type := MkValidation {
  approved : bool;
  risk_score : Q;
  validation_warnings : list string
}.

(** The [try] block of [validate_transaction]. *)
Definition validate_transaction_body (transaction : dict) : outcome Validation :=
  let tx_type := get transaction "type" (PStr "") in
  let amount := get transaction "amount" (PNum 0) in
  protocol ← lower (get transaction "protocol" (PStr ""));
  let risk_score0 := 30 in
  let protocol_risk := default 50 (protocol_risk_ratings !! protocol) in
  let risk_score1 := risk_score0 + protocol_risk * (1 # 2) in
  large ← gt_num amount 100000;
  staged ←
    (if (large : bool) then Ok (["Large transaction amount"%string], risk_score1 + 20)
     else
       medium ← gt_num amount 50000;
       Ok ([], if (medium : bool) then risk_score1 + 10 else risk_score1));
  let '(warnings, risk_score2) := staged in
  let risk_score3 :=
    if eqb tx_type (PStr "swap") || eqb tx_type (PStr "add_liquidity")
    then risk_score2 + 10
    else if eqb tx_type (PStr "lending_supply") then risk_score2 + 15
    else risk_score2 in
  let approved := Qle_bool risk_score3 70 in
  Ok {| approved := approved;
        risk_score := round1 risk_score3;
        validation_warnings := warnings |}.

(** [validate_transaction]: the [except] clause turns any exception of the
    body into a rejecting result with score 100. *)
Definition validate_transaction (transaction : dict) : outcome Validation :=
  match validate_transaction_body transaction with
  | Ok v => Ok v
  | Raise e =>
      Ok {| approved := false;
            risk_score := 100;
            validation_warnings := ["Validation error: " +:+ exn_str e] |}
  end.

End RiskModels.

(** ** [risk_guardian/agent.py]: [RiskGuardianAgent] *)

Module RiskGuardian.

Import Py.
#[local] Open Scope Q_scope.

(** What [payment_service.create_payment] hands back: id and status. *)
Record Payment : Type := MkPayment {
  payment_id : string;
  payment_status : string
}.

(** The response dictionary of [assess_strategy] (time stamps left out). *)
Record Assessment : Type := MkAssessment {
  agent : string;
  strategy_id : option string;
  approved : bool;
  risk_analysis : RiskModels.RiskAnalysis;
  price_ada : Q;
  payment : option Payment
}.

(** [if requester_wallet_id:] is false for [None] and for the empty string. *)
Definition truthy (s : option string) : bool :=
  match s with
  | Some (String _ _) => true
  | _ => false
  end.

(** [assess_strategy].  [create_payment] stands for the call to the payment
    service, which is outside the program; the [except] clause re-raises. *)
Definition assess_strategy
    (price_per_check : Q) (create_payment : string -> outcome Payment)
    (strategy : RiskModels.Strategy) (requester_wallet_id : option string)
  : outcome Assessment :=
  risk_analysis ← RiskModels.analyze_strategy strategy;
  let approved := Qle_bool (RiskModels.overall_risk_score risk_analysis) 70 in
  let response :=
    {| agent := "risk_guardian";
       strategy_id := RiskModels.strategy_id strategy;
       approved := approved;
       risk_analysis := risk_analysis;
       price_ada := price_per_check;
       payment := None |} in
  if truthy requester_wallet_id then
    paid ← create_payment (default "" requester_wallet_id);
    Ok {| agent := agent response;
          strategy_id := strategy_id response;
          approved := approved;
          risk_analysis := risk_analysis;
          price_ada := price_per_check;
          payment := Some paid |}
  else Ok response.

(** One entry of the [alerts] list of [monitor_portfolio]. *)
Record Alert : Type := MkAlert {
  severity : string;
  message : string;
  recommendation : string
}.

(** The dictionary that [monitor_portfolio] returns (time stamp left out). *)
Record MonitorReport : Type := MkMonitorReport {
  monitor_agent : string;
  user_address : string;
  health_report : RiskModels.HealthReport;
  alerts : list Alert;
  overall_health : string
}.

(** [health_report[key]]: a key the dictionary does not have is a
    [KeyError], whose text is the key between quotes. *)
Definition subscript (key : string) (field : option Q) : outcome Q :=
  match field with
  | Some q => Ok q
  | None => Raise (MkExn KeyError ("'" +:+ key +:+ "'"))
  end.

(** [monitor_portfolio]: the report of the analyser is read by subscript;
    the [except] clause re-raises. *)
Definition monitor_portfolio (portfolio : RiskModels.Portfolio) (user_address : string)
  : outcome MonitorReport :=
  health_report ← RiskModels.analyze_portfolio_health portfolio;
  concentration ← subscript "concentration_risk"
                    (RiskModels.health_concentration_risk health_report);
  let alerts1 :=
    if Qltb 60 concentration
    then [ MkAlert "high" "High concentration risk detected"
             "Diversify holdings across more protocols" ]
    else [] in
  liquidity ← subscript "liquidity_risk" (RiskModels.health_liquidity_risk health_report);
  let alerts :=
    alerts1 ++
    (if Qltb 50 liquidity
     then [ MkAlert "medium" "Liquidity risk elevated"
              "Consider moving to higher TVL pools" ]
     else []) in
  Ok {| monitor_agent := "risk_guardian";
        user_address := user_address;
        health_report := health_report;
        alerts := alerts;
        overall_health := match alerts with [] => "healthy" | _ => "warning" end |}.

End RiskGuardian.

(** ** [simple_agents.py]: [SimpleRiskAgent] *)

Module SimpleAgents.

Import Py.
#[local] Open Scope Q_scope.

(** The dictionary [SimpleRiskAgent.execute] returns: the success payload
    has the score fields, the failure payload has ["error"]. *)
Record RiskResult : Type := MkRiskResult {
  success : bool;
  agent : string;
  approved : option bool;
  overall_risk_score : option Q;
  risk_breakdown : list (string * Q);
  warnings : list string;
  recommendations : list string;
  ai_analysis : option string;
  error : option string
}.

(** [SimpleRiskAgent.execute]: [llm_invoke] is the outcome of
    [self.llm.invoke(messages)], text or exception. *)
Definition SimpleRiskAgent_execute (llm_invoke : outcome string) (input_data : dict)
  : RiskResult :=
  match llm_invoke with
  | Ok content =>
      {| success := true;
         agent := "risk_guardian";
         approved := Some true;
         overall_risk_score := Some (275 # 10);
         risk_breakdown :=
           [ ("smart_contract_risk"%string, 20); ("liquidity_risk"%string, 25);
             ("concentration_risk"%string, 30); ("market_volatility"%string, 35) ];
         warnings :=
           [ "Moderate concentration in volatile assets"%string;
             "Consider diversifying across more protocols"%string ];
         recommendations :=
           [ "Limit single-protocol exposure to <40%"%string;
             "Monitor liquidity levels daily"%string;
             "Set stop-loss at -15%"%string ];
         ai_analysis := Some content;
         error := None |}
  | Raise e =>
      {| success := false;
         agent := "risk_guardian";
         approved := None;
         overall_risk_score := None;
         risk_breakdown := [];
         warnings := [];
         recommendations := [];
         ai_analysis := None;
         error := Some (exn_str e) |}
  end.

End SimpleAgents.

(** ** [payment_service.py]: the bounded settlement poll *)

Module PaymentService.

(** [poll_for_funds_locked]: [check_funds_locked k] is the answer of the
    [k]-th query to the payment service (an HTTP error counts as [false]).
    The loop runs [attempt] over [range(1, max_attempts + 1)] and sleeps
    between attempts; [remaining] counts the iterations left.  The result is
    the returned flag, the number of queries made and the seconds slept. *)
Fixpoint poll_loop (check_funds_locked : nat -> bool)
    (max_attempts interval_seconds remaining queries slept : nat) : bool * nat * nat :=
  match remaining with
  | O => (false, queries, slept)
  | S remaining' =>
      let attempt := max_attempts - remaining' in
      if check_funds_locked attempt then (true, S queries, slept)
      else
        poll_loop check_funds_locked max_attempts interval_seconds remaining'
          (S queries)
          (if attempt <? max_attempts then slept + interval_seconds else slept)
  end.

Definition poll_for_funds_locked (check_funds_locked : nat -> bool)
    (max_attempts interval_seconds : nat) : bool * nat * nat :=
  poll_loop check_funds_locked max_attempts interval_seconds max_attempts 0 0.

End PaymentService.

(** ** [config/settings.py]: the poll budget *)

Module Settings.

#[local] Open Scope Z_scope.

(** [PaymentSettings.validate_max_attempts]: [values] holds the fields
    validated before [max_poll_attempts].  [None] is the
    [ZeroDivisionError] of [timeout // interval]. *)
Definition validate_max_attempts (v : Z) (values : gmap string Z) : option Z :=
  let timeout := default 60 (values !! "timeout_seconds"%string) in
  let interval := default 2 (values !! "poll_interval_seconds"%string) in
  let max_duration := v * interval in
  if timeout + 10 <? max_duration then
    if interval =? 0 then None else Some (timeout / interval)
  else Some v.

End Settings.

(** ** [api/routes/mip003.py]: the job store and its endpoints *)

Module Mip003.

Import Py.

Inductive JobStatus : Type :=
  | AWAITING_PAYMENT
  | PAYMENT_RECEIVED
  | IN_PROGRESS
  | COMPLETED
  | FAILED
  | CANCELLED.

#[global] Instance JobStatus_eq_dec : EqDecision JobStatus.
Proof. solve_decision. Defined.

(** The value of the enumeration member. *)
Definition status_value (s : JobStatus) : string :=
  match s with
  | AWAITING_PAYMENT => "awaiting_payment"
  | PAYMENT_RECEIVED => "payment_received"
  | IN_PROGRESS => "in_progress"
  | COMPLETED => "completed"
  | FAILED => "failed"
  | CANCELLED => "cancelled"
  end.

(** An agent object: its [execute] method, on the input dictionary. *)
Record Agent : Type := MkAgent {
  execute : dict -> outcome dict
}.

(** A record of [jobs_db]. *)
Record Job : Type := MkJob {
  job_id : string;
  agent_type : string;
  status : JobStatus;
  payment_id : string;
  payment_status : string;
  input_data : dict;
  identifier_from_purchaser : option string;
  created_at : nat;
  updated_at : nat;
  result : option dict;
  error : option string
}.

Definition set_status (s : JobStatus) (j : Job) : Job :=
  MkJob (job_id j) (agent_type j) s (payment_id j) (payment_status j)
        (input_data j) (identifier_from_purchaser j) (created_at j)
        (updated_at j) (result j) (error j).

Definition set_payment_status (p : string) (j : Job) : Job :=
  MkJob (job_id j) (agent_type j) (status j) (payment_id j) p
        (input_data j) (identifier_from_purchaser j) (created_at j)
        (updated_at j) (result j) (error j).

Definition set_input_data (d : dict) (j : Job) : Job :=
  MkJob (job_id j) (agent_type j) (status j) (payment_id j) (payment_status j)
        d (identifier_from_purchaser j) (created_at j)
        (updated_at j) (result j) (error j).

Definition set_updated_at (t : nat) (j : Job) : Job :=
  MkJob (job_id j) (agent_type j) (status j) (payment_id j) (payment_status j)
        (input_data j) (identifier_from_purchaser j) (created_at j)
        t (result j) (error j).

Definition set_result (r : option dict) (j : Job) : Job :=
  MkJob (job_id j) (agent_type j) (status j) (payment_id j) (payment_status j)
        (input_data j) (identifier_from_purchaser j) (created_at j)
        (updated_at j) r (error j).

Definition set_error (e : option string) (j : Job) : Job :=
  MkJob (job_id j) (agent_type j) (status j) (payment_id j) (payment_status j)
        (input_data j) (identifier_from_purchaser j) (created_at j)
        (updated_at j) (result j) e.

(** The phases of a background task [poll_payment_status]: suspended in
    [asyncio.sleep(2)], suspended in [agent.execute], or returned. *)
Inductive Phase : Type :=
  | Sleeping
  | Executing
  | Returned.

Record Task : Type := MkTask {
  task_job_id : string;
  task_payment_id : string;
  task_agent : Agent;
  task_input_data : dict;
  task_phase : Phase
}.

Definition set_phase (p : Phase) (t : Task) : Task :=
  MkTask (task_job_id t) (task_payment_id t) (task_agent t) (task_input_data t) p.

(** The mutable state of the service: [jobs_db] and the background tasks
    that were scheduled, in scheduling order. *)
Record State : Type := MkState {
  jobs_db : gmap string Job;
  background_tasks : list Task
}.

(** [request.app.state]: the three agents, [None] when not initialised. *)
Record AppState : Type := MkAppState {
  market_agent : option Agent;
  strategy_agent : option Agent;
  risk_agent : option Agent
}.

(** What an endpoint does: return a body or raise [HTTPException]. *)
Inductive http (A : Type) : Type :=
  | Response (body : A)
  | HTTPException (status_code : nat) (detail : string).
Arguments Response {A} body.
Arguments HTTPException {A} status_code detail.

Record StartJobRequest : Type := MkStartJobRequest {
  req_agent_type : string;
  req_input_data : dict;
  req_identifier_from_purchaser : option string
}.

Record PaymentRequest : Type := MkPaymentRequest {
  pr_payment_id : string;
  amount_lovelace : Z;
  recipient_address : string;
  metadata_job_id : string;
  metadata_agent_type : string;
  metadata_purchaser_id : option string
}.

Record StartJobResponse : Type := MkStartJobResponse {
  resp_job_id : string;
  resp_status : JobStatus;
  payment_request : PaymentRequest;
  resp_created_at : nat
}.

Record AgentConfig : Type := MkAgentConfig {
  cfg_agent : option Agent;
  price_ada : Q;
  name : string;
  wallet_address : string
}.

(** The dictionary [agent_config] that [start_job] builds. *)
Definition agent_config (app : AppState) : gmap string AgentConfig :=
  <[ "market"%string :=
       MkAgentConfig (market_agent app) (1 # 100)
         "Market Intelligence Agent" "addr_test1market_demo" ]>
  (<[ "strategy"%string :=
       MkAgentConfig (strategy_agent app) (5 # 100)
         "Strategy Executor Agent" "addr_test1strategy_demo" ]>
  (<[ "risk"%string :=
       MkAgentConfig (risk_agent app) (2 # 100)
         "Risk Guardian Agent" "addr_test1risk_demo" ]> ∅)).

(** [int(x)]: truncation towards zero. *)
Definition int_of (x : Q) : Z :=
  if Qle_bool 0 x then Qfloor x else Qceiling x.

(** [POST /start_job].  [job_id] and [payment_id] are the two values of
    [uuid.uuid4()] drawn at the top of the handler, [created_at] is the
    clock.  Both checks raise before [jobs_db] is written. *)
Definition start_job (app : AppState) (job_request : StartJobRequest)
    (job_id payment_id : string) (created_at : nat) (st : State)
  : http StartJobResponse * State :=
  match agent_config app !! req_agent_type job_request with
  | None =>
      (HTTPException 400 "Invalid agent_type. Must be one of: market, strategy, risk",
       st)
  | Some config =>
      match cfg_agent config with
      | None => (HTTPException 503 (name config +:+ " is not available"), st)
      | Some agent =>
          let amount_lovelace := int_of (price_ada config * 1000000)%Q in
          let payment_request :=
            MkPaymentRequest payment_id amount_lovelace (wallet_address config)
              job_id (req_agent_type job_request)
              (req_identifier_from_purchaser job_request) in
          let job :=
            MkJob job_id (req_agent_type job_request) AWAITING_PAYMENT payment_id
              "awaiting" (req_input_data job_request)
              (req_identifier_from_purchaser job_request)
              created_at created_at None None in
          let task :=
            MkTask job_id payment_id agent (req_input_data job_request) Sleeping in
          (Response (MkStartJobResponse job_id AWAITING_PAYMENT payment_request created_at),
           MkState (<[ job_id := job ]> (jobs_db st)) (background_tasks st ++ [task]))
      end
  end.

Record CancelResponse : Type := MkCancelResponse {
  cancel_job_id : string;
  cancel_status : string;
  cancel_message : string
}.

(** [DELETE /jobs/{job_id}] *)
Definition cancel_job (job_id : string) (now : nat) (st : State)
  : http CancelResponse * State :=
  match jobs_db st !! job_id with
  | None => (HTTPException 404 ("Job " +:+ job_id +:+ " not found"), st)
  | Some job =>
      if bool_decide (status job ∈ [COMPLETED; FAILED]) then
        (HTTPException 400 ("Cannot cancel job in status: " +:+ status_value (status job)),
         st)
      else
        (Response (MkCancelResponse job_id "cancelled" "Job has been cancelled"),
         MkState (<[ job_id := set_updated_at now (set_status CANCELLED job) ]> (jobs_db st))
                 (background_tasks st))
  end.

Record ProvideInputResponse : Type := MkProvideInputResponse {
  provide_job_id : string;
  provide_status : string;
  provide_message : string
}.

(** [POST /provide_input]: [input_data.update(additional_input)] lets the
    keys of [additional_input] win. *)
Definition provide_additional_input (job_id : string) (additional_input : dict)
    (now : nat) (st : State) : http ProvideInputResponse * State :=
  match jobs_db st !! job_id with
  | None => (HTTPException 404 ("Job " +:+ job_id +:+ " not found"), st)
  | Some job =>
      if bool_decide (status job ∈ [PAYMENT_RECEIVED; IN_PROGRESS]) then
        (Response (MkProvideInputResponse job_id "input_received"
                     "Additional input has been added to the job"),
         MkState
           (<[ job_id := set_updated_at now
                           (set_input_data (additional_input ∪ input_data job) job) ]>
              (jobs_db st))
           (background_tasks st))
      else
        (HTTPException 400
           ("Cannot provide input to job in status: " +:+ status_value (status job)),
         st)
  end.


(** [poll_payment_status], first stretch: from the return of
    [asyncio.sleep(2)] to the call of [agent.execute].  The only test after
    waking is whether the job is still in [jobs_db]; the two status writes
    follow unconditionally.  [None] is the early [return]. *)
Definition poll_payment_status_wake (job_id : string) (now1 now2 : nat)
    (db : gmap string Job) : option (gmap string Job) :=
  match db !! job_id with
  | None => None
  | Some job =>
      let job1 :=
        set_updated_at now1
          (set_payment_status "confirmed" (set_status PAYMENT_RECEIVED job)) in
      let job2 := set_updated_at now2 (set_status IN_PROGRESS job1) in
      Some (<[ job_id := job2 ]> db)
  end.

(** [poll_payment_status], second stretch: from the outcome of
    [agent.execute] to the end.  A missing job makes the first write raise
    [KeyError], which the handler swallows since the job is not there. *)
Definition poll_payment_status_finish (job_id : string) (out : outcome dict)
    (now : nat) (db : gmap string Job) : gmap string Job :=
  match db !! job_id with
  | None => db
  | Some job =>
      match out with
      | Ok res =>
          <[ job_id := set_updated_at now (set_result (Some res) (set_status COMPLETED job)) ]> db
      | Raise e =>
          <[ job_id := set_updated_at now
                         (set_error (Some (exn_str e)) (set_status FAILED job)) ]> db
      end
  end.

(** [poll_payment_status] run without interruption. *)
Definition poll_payment_status (job_id payment_id : string) (agent : Agent)
    (input_data : dict) (now1 now2 now3 : nat) (db : gmap string Job)
  : gmap string Job :=
  match poll_payment_status_wake job_id now1 now2 db with
  | None => db
  | Some db' => poll_payment_status_finish job_id (execute agent input_data) now3 db'
  end.

(** What can happen to the service, one uninterrupted stretch at a time. *)
Inductive Event : Type :=
  | EStartJob (app : AppState) (job_request : StartJobRequest)
              (job_id payment_id : string) (now : nat)
  | ECancelJob (job_id : string) (now : nat)
  | EProvideInput (job_id : string) (additional_input : dict) (now : nat)
  | EWake (task : nat) (now1 now2 : nat)
  | EFinish (task : nat) (now : nat).

Definition step (st : State) (ev : Event) : State :=
  match ev with
  | EStartJob app job_request job_id payment_id now =>
      snd (start_job app job_request job_id payment_id now st)
  | ECancelJob job_id now => snd (cancel_job job_id now st)
  | EProvideInput job_id additional_input now =>
      snd (provide_additional_input job_id additional_input now st)
  | EWake i now1 now2 =>
      match background_tasks st !! i with
      | Some t =>
          match task_phase t with
          | Sleeping =>
              match poll_payment_status_wake (task_job_id t) now1 now2 (jobs_db st) with
              | None =>
                  MkState (jobs_db st) (<[ i := set_phase Returned t ]> (background_tasks st))
              | Some db =>
                  MkState db (<[ i := set_phase Executing t ]> (background_tasks st))
              end
          | _ => st
          end
      | None => st
      end
  | EFinish i now =>
      match background_tasks st !! i with
      | Some t =>
          match task_phase t with
          | Executing =>
              MkState
                (poll_payment_status_finish (task_job_id t)
                   (execute (task_agent t) (task_input_data t)) now (jobs_db st))
                (<[ i := set_phase Returned t ]> (background_tasks st))
          | _ => st
          end
      | None => st
      end
  end.

Definition run (st : State) (evs : list Event) : State := fold_left step evs st.

Definition initial : State := MkState ∅ [].

Definition status_of (st : State) (job_id : string) : option JobStatus :=
  status <$> jobs_db st !! job_id.

(** One entry of the [agents] dictionary of [GET /availability]. *)
Record AgentAvailability : Type := MkAgentAvailability {
  agent_available : bool;
  agent_name : string;
  price_lovelace : option Z;
  capabilities : list string
}.

Record AvailabilityResponse : Type := MkAvailabilityResponse {
  available : bool;
  agents : gmap string AgentAvailability;
  timestamp : nat;
  version : string
}.

Definition is_some {A : Type} (o : option A) : bool :=
  match o with
  | Some _ => true
  | None => false
  end.

(** [int(price * 1_000_000) if agent else None] *)
Definition advertised_price (agent : option Agent) (price : Q) : option Z :=
  match agent with
  | Some _ => Some (int_of (price * 1000000)%Q)
  | None => None
  end.

(** [GET /availability] *)
Definition get_availability (app : AppState) (now : nat) : http AvailabilityResponse :=
  Response
    (MkAvailabilityResponse true
       (<[ "market"%string :=
             MkAgentAvailability (is_some (market_agent app))
               "Market Intelligence Agent"
               (advertised_price (market_agent app) (1 # 100))
               ["market_analysis"; "yield_opportunities"; "protocol_data"]%string ]>
        (<[ "strategy"%string :=
             MkAgentAvailability (is_some (strategy_agent app))
               "Strategy Executor Agent"
               (advertised_price (strategy_agent app) (5 # 100))
               ["portfolio_optimization"; "strategy_generation"; "allocation"]%string ]>
        (<[ "risk"%string :=
             MkAgentAvailability (is_some (risk_agent app))
               "Risk Guardian Agent"
               (advertised_price (risk_agent app) (2 # 100))
               ["risk_assessment"; "strategy_validation"; "risk_scoring"]%string ]> ∅)))
       now "1.0.0").

Record InputSchemaField : Type := MkInputSchemaField {
  field_name : string;
  field_type : string;
  required : bool;
  description : string;
  field_default : option pyval
}.

Record InputSchema : Type := MkInputSchema {
  schema_agent_type : string;
  schema_version : string;
  fields : list InputSchemaField
}.

(** The dictionary [schemas] that [get_input_schema] builds. *)
Definition schemas : gmap string InputSchema :=
  <[ "market"%string :=
       MkInputSchema "market" "1.0.0"
         [ MkInputSchemaField "query" "string" true
             "Market analysis query or question" None;
           MkInputSchemaField "min_tvl" "number" false
             "Minimum Total Value Locked filter" (Some (PNum 100000));
           MkInputSchemaField "min_apr" "number" false
             "Minimum APR filter (percentage)" (Some (PNum 5)) ] ]>
  (<[ "strategy"%string :=
       MkInputSchema "strategy" "1.0.0"
         [ MkInputSchemaField "user_portfolio" "object" true
             "Current portfolio with ada_balance and positions" None;
           MkInputSchemaField "risk_tolerance" "string" true
             "Risk tolerance level: conservative, moderate, or aggressive" None;
           MkInputSchemaField "target_return" "number" true
             "Target annual return percentage" None;
           MkInputSchemaField "portfolio_size" "number" false
             "Portfolio size in ADA" (Some (PNum 10000)) ] ]>
  (<[ "risk"%string :=
       MkInputSchema "risk" "1.0.0"
         [ MkInputSchemaField "strategy" "object" true
             "Strategy object with recommended_allocations" None;
           MkInputSchemaField "risk_tolerance" "string" false
             "Expected risk tolerance for validation" (Some (PStr "moderate")) ] ]> ∅)).

(** [GET /input_schema] *)
Definition get_input_schema (agent_type : string) : http InputSchema :=
  match schemas !! agent_type with
  | None =>
      HTTPException 400 "Invalid agent_type. Must be one of: market, strategy, risk"
  | Some schema => Response schema
  end.

End Mip003.

(** ** Well-formed payloads and the quantities the specification names *)

Module RiskSpec.

Import Py RiskModels.
#[local] Open Scope Q_scope.

Definition is_num (v : pyval) : bool :=
  match v with
  | PNum _ => true
  | _ => false
  end.

Definition is_str (v : pyval) : bool :=
  match v with
  | PStr _ => true
  | _ => false
  end.

(** Field [k] of [d] is absent or a number (resp. a string). *)
Definition num_field (k : string) (d : dict) : bool :=
  match d !! k with
  | Some v => is_num v
  | None => true
  end.

Definition str_field (k : string) (d : dict) : bool :=
  match d !! k with
  | Some v => is_str v
  | None => true
  end.

(** An allocation as §3 of the specification describes it: a protocol
    name, a percentage, an optional risk score and an optional APR. *)
Definition well_formed (alloc : dict) : bool :=
  str_field "protocol" alloc && num_field "allocation_percent" alloc
  && num_field "risk_score" alloc && num_field "expected_apr" alloc.

(** The number in field [k], or [dflt]. *)
Definition num_of (k : string) (dflt : Q) (d : dict) : Q :=
  match d !! k with
  | Some (PNum q) => q
  | _ => dflt
  end.

Definition percent (alloc : dict) : Q := num_of "allocation_percent" 0 alloc.

(** The percentage of [alloc] is the number [q]. *)
Definition has_percent (q : Q) (alloc : dict) : bool :=
  match alloc !! "allocation_percent" with
  | Some (PNum p) => Qeq_bool p q
  | _ => false
  end.

(** Herfindahl-Hirschman index: the sum of the squared percentages. *)
Fixpoint hhi (l : list dict) : Q :=
  match l with
  | [] => 0
  | a :: l' => percent a * percent a + hhi l'
  end.

(** Concentration risk in the specification's words: HHI divided by 100,
    clamped to 100, and 0 on the empty list. *)
Definition spec_concentration_risk (l : list dict) : Q :=
  match l with
  | [] => 0
  | _ => Qmin (hhi l / 100) 100
  end.

(** The protocol name that the table is looked up with. *)
Definition protocol_key (alloc : dict) : string :=
  match alloc !! "protocol" with
  | Some (PStr s) => lower_string s
  | _ => ""
  end.

(** The base-rate table, with 50 for a protocol it does not list. *)
Definition base_rate (protocol : string) : Q :=
  default 50 (protocol_risk_ratings !! protocol).

(** The risk score of an allocation, or its protocol's base rate. *)
Definition position_risk (alloc : dict) : Q :=
  num_of "risk_score" (base_rate (protocol_key alloc)) alloc.

Definition weight (alloc : dict) : Q := percent alloc / 100.

Fixpoint weighted_risk (l : list dict) : Q :=
  match l with
  | [] => 0
  | a :: l' => position_risk a * weight a + weighted_risk l'
  end.

Fixpoint total_weight (l : list dict) : Q :=
  match l with
  | [] => 0
  | a :: l' => weight a + total_weight l'
  end.

(** Protocol risk in the specification's words: the weighted average, and
    0 when the total weight is 0. *)
Definition spec_protocol_risk (l : list dict) : Q :=
  if Qeq_bool (total_weight l) 0 then 0 else weighted_risk l / total_weight l.

(** [n] positions of equal size [100/n] in [n] distinct protocols. *)
Definition protocol_of (alloc : dict) : pyval := default PNone (alloc !! "protocol").

(** Every item is a string that does not occur again further on. *)
Fixpoint distinct_strings (vs : list pyval) : bool :=
  match vs with
  | [] => true
  | PStr s :: vs' => negb (existsb (eqb (PStr s)) vs') && distinct_strings vs'
  | _ :: _ => false
  end.

Definition equal_positions (n : nat) (l : list dict) : bool :=
  (length l =? n)%nat
  && forallb (has_percent (100 / inject_Z (Z.of_nat n))) l
  && distinct_strings (map protocol_of l).

(** The APR of an allocation, 0 when it has none. *)
Definition apr_of (alloc : dict) : Q := num_of "expected_apr" 0 alloc.

(** The score of [n] equal positions in [n] distinct protocols: 14 points
    per position (8 for the protocol, 6 for the position), 30 for the
    balance once there is more than one position, at most 100. *)
Definition equal_positions_score (n : nat) : Q :=
  Qmin (14 * inject_Z (Z.of_nat n) + (if (n =? 1)%nat then 0 else 30)) 100.

End RiskSpec.

(** ** What the job store keeps true *)

Module JobSpec.

Import Mip003.

(** A record that came straight out of [start_job]. *)
Definition pristine (job : Job) : Prop :=
  payment_status job = "awaiting"%string /\ result job = None /\ error job = None
  /\ updated_at job = created_at job.

(** What holds of the record stored under [id]. *)
Definition well_kept (id : string) (job : Job) : Prop :=
  job_id job = id
  /\ agent_type job ∈ ["market"; "strategy"; "risk"]%string
  /\ payment_status job ∈ ["awaiting"; "confirmed"]%string
  /\ status job <> PAYMENT_RECEIVED
  /\ (status job = AWAITING_PAYMENT -> pristine job)
  /\ (status job = IN_PROGRESS -> payment_status job = "confirmed"%string)
  /\ (status job = COMPLETED -> is_Some (result job))
  /\ (status job = FAILED -> is_Some (error job)).

Definition store_ok (st : State) : Prop :=
  forall id job, jobs_db st !! id = Some job -> well_kept id job.

(** Every scheduled monitor has its job in the store. *)
Definition tasks_ok (st : State) : Prop :=
  forall i t, background_tasks st !! i = Some t -> is_Some (jobs_db st !! task_job_id t).

(** Job ids are not reused: every [start_job] of the sequence draws an id
    that is not in the store, as [uuid.uuid4()] does in practice. *)
Definition fresh_event (st : State) (ev : Event) : Prop :=
  match ev with
  | EStartJob _ _ id _ _ => jobs_db st !! id = None
  | _ => True
  end.

Fixpoint fresh_ids (st : State) (evs : list Event) : Prop :=
  match evs with
  | [] => True
  | ev :: evs' => fresh_event st ev /\ fresh_ids (step st ev) evs'
  end.

(** How far a monitor has come, read off its job. *)
Definition phase_matches (t : Task) (job : Job) : Prop :=
  match task_phase t with
  | Sleeping =>
      (status job = AWAITING_PAYMENT \/ status job = CANCELLED)
      /\ result job = None /\ error job = None
  | Executing =>
      (status job = IN_PROGRESS \/ status job = CANCELLED)
      /\ result job = None /\ error job = None
  | Returned =>
      (status job = COMPLETED /\ is_Some (result job) /\ error job = None)
      \/ (status job = FAILED /\ is_Some (error job) /\ result job = None)
  end.

(** One monitor per job, each in step with its job. *)
Definition synced (st : State) : Prop :=
  NoDup (task_job_id <$> background_tasks st)
  /\ (forall i t, background_tasks st !! i = Some t ->
        exists job, jobs_db st !! task_job_id t = Some job /\ phase_matches t job)
  /\ (forall id job, jobs_db st !! id = Some job ->
        exists i t, background_tasks st !! i = Some t /\ task_job_id t = id).

End JobSpec.

(** ** Concrete payloads *)

Module Examples.

Import Py.
#[local] Open Scope Q_scope.

Definition alloc (protocol : string) (percent : Q) : dict :=
  <[ "protocol"%string := PStr protocol ]>
    (<[ "allocation_percent"%string := PNum percent ]> ∅).

Definition alloc_apr (protocol : string) (percent apr : Q) : dict :=
  <[ "expected_apr"%string := PNum apr ]> (alloc protocol percent).

Definition single_position : list dict := [ alloc "minswap" 100 ].

Definition two_positions : list dict :=
  [ alloc "minswap" 50; alloc "sundaeswap" 50 ].

Definition five_positions : list dict :=
  [ alloc "minswap" 20; alloc "sundaeswap" 20; alloc "liqwid" 20;
    alloc "indigo" 20; alloc "wingriders" 20 ].

Definition six_positions : list dict :=
  [ alloc "minswap" (100 / 6); alloc "sundaeswap" (100 / 6);
    alloc "liqwid" (100 / 6); alloc "indigo" (100 / 6);
    alloc "wingriders" (100 / 6); alloc "muesliswap" (100 / 6) ].

(** The strategy of the specification's end-to-end scenario. *)
Definition scenario_allocations : list dict :=
  [ alloc_apr "minswap" 60 12; alloc_apr "liqwid" 40 8 ].

Definition scenario_strategy : RiskModels.Strategy :=
  RiskModels.MkStrategy None (Some scenario_allocations).

(** A transaction whose protocol is [null]. *)
Definition tx_null_protocol : dict :=
  <[ "protocol"%string := PNone ]> (<[ "amount"%string := PNum 10 ]> ∅).

(** A portfolio with a position whose TVL is a string. *)
Definition portfolio_text_tvl : RiskModels.Portfolio :=
  RiskModels.MkPortfolio (Some [ <[ "tvl_ada"%string := PStr "n/a" ]> ∅ ]).

(** An agent that answers and an agent that fails. *)
Definition answering_agent : Mip003.Agent :=
  Mip003.MkAgent (fun _ => Ok (<[ "success"%string := PNum 1 ]> ∅)).

Definition failing_agent : Mip003.Agent :=
  Mip003.MkAgent (fun _ => Raise (MkExn RuntimeError "LLM unavailable")).

Definition app_all : Mip003.AppState :=
  Mip003.MkAppState (Some answering_agent) (Some answering_agent) (Some answering_agent).

Definition app_none : Mip003.AppState := Mip003.MkAppState None None None.

Definition risk_request : Mip003.StartJobRequest :=
  Mip003.MkStartJobRequest "risk" ∅ None.

Definition bogus_request : Mip003.StartJobRequest :=
  Mip003.MkStartJobRequest "bogus"
    (<[ "query"%string := PStr "best yields" ]> (<[ "min_apr"%string := PNum 5 ]> ∅))
    None.

(** A payment service that never reports the funds as locked. *)
Definition never_locked : nat -> bool := fun _ => false.

(** A job is started, cancelled while its monitor sleeps, then the monitor
    wakes and the agent answers. *)
Definition cancel_then_wake : list Mip003.Event :=
  [ Mip003.EStartJob app_all risk_request "job-1" "pay-1" 10;
    Mip003.ECancelJob "job-1" 11;
    Mip003.EWake 0 12 12;
    Mip003.EFinish 0 13 ].

(** The store after one job was started at time 10. *)
Definition one_job : Mip003.State :=
  snd (Mip003.start_job app_all risk_request "job-1" "pay-1" 10 Mip003.initial).

End Examples.


(** ** Proofs: arithmetic helpers *)

(** Run the error monad one step: a [bind] whose first computation is a
    value continues with it, one that raised stops. *)
Ltac run_bind := cbn [mbind Py.outcome_bind Py.bind].

(** Equality of triples, component by component. *)
Ltac triple_eq :=
  apply pair_equal_spec; split; [apply pair_equal_spec; split|].


Section Helpers.

Import Py RiskModels RiskSpec.
#[local] Open Scope Q_scope.

Lemma Qltb_true (a b : Q) : Qltb a b = true <-> a < b.
Proof.
  unfold Qltb. rewrite negb_true_iff. split.
  - intros H. apply Qnot_le_lt. intros Hle.
    apply Qle_bool_iff in Hle. congruence.
  - intros H. destruct (Qle_bool b a) eqn:E; [|reflexivity].
    apply Qle_bool_iff in E. exfalso. apply (Qlt_not_le _ _ H E).
Qed.

Lemma Qltb_false (a b : Q) : Qltb a b = false <-> b <= a.
Proof.
  unfold Qltb. rewrite negb_false_iff. apply Qle_bool_iff.
Qed.

Lemma min2_Qmin (a b : Q) : min2 a b == Qmin a b.
Proof.
  unfold min2. destruct (Qltb b a) eqn:E.
  - apply Qltb_true in E. rewrite Q.min_r; [reflexivity | lra].
  - apply Qltb_false in E. rewrite Q.min_l; [reflexivity | lra].
Qed.

Lemma max2_Qmax (a b : Q) : max2 a b == Qmax a b.
Proof.
  unfold max2. destruct (Qltb a b) eqn:E.
  - apply Qltb_true in E. rewrite Q.max_r; [reflexivity | lra].
  - apply Qltb_false in E. rewrite Q.max_l; [reflexivity | lra].
Qed.

Lemma bind_ok {A B : Type} (m : outcome A) (k : A -> outcome B) (a : A) :
  m = Ok a -> (x ← m; k x) = k a.
Proof. intros ->. reflexivity. Qed.

Lemma num_field_get (k : string) (d : dict) (dflt : Q) :
  num_field k d = true -> get d k (PNum dflt) = PNum (num_of k dflt d).
Proof.
  unfold num_field, get, num_of. destruct (d !! k) as [[]|]; simpl; congruence.
Qed.

(** [max] over numbers never raises. *)
Lemma max_from_num (vs : list pyval) :
  forall cur, is_num cur = true -> forallb is_num vs = true ->
  exists v, max_from cur vs = Ok v.
Proof.
  induction vs as [|v vs IH]; intros cur Hc Hvs; simpl.
  - eauto.
  - simpl in Hvs. apply andb_prop in Hvs as [Hv Hvs].
    destruct v; try discriminate. destruct cur; try discriminate.
    simpl. apply IH; [|assumption]. destruct (Qltb _ _); reflexivity.
Qed.

Lemma allocation_percent_num (a : dict) :
  num_field "allocation_percent" a = true -> allocation_percent a = PNum (percent a).
Proof. apply num_field_get. Qed.

Lemma forallb_map_percent (l : list dict) :
  forallb (num_field "allocation_percent") l = true ->
  forallb is_num (map allocation_percent l) = true.
Proof.
  induction l as [|a l IH]; [reflexivity|].
  intros H. cbn [forallb] in H. apply andb_prop in H as [Ha Hl].
  cbn [map forallb]. rewrite (allocation_percent_num a Ha). simpl. auto.
Qed.

Lemma sum_squares_hhi (l : list dict) :
  forallb (num_field "allocation_percent") l = true ->
  forall acc, exists r,
    sum_with (fun alloc => pow2 (allocation_percent alloc)) acc l = Ok r
    /\ r == acc + hhi l.
Proof.
  induction l as [|a l IH]; intros H acc.
  - exists acc. split; [reflexivity | simpl; lra].
  - cbn [forallb] in H. apply andb_prop in H as [Ha Hl].
    cbn [sum_with]. rewrite (allocation_percent_num a Ha).
    cbn [pow2 mbind outcome_bind bind].
    destruct (IH Hl (acc + percent a * percent a)) as (r & Hr & Hq).
    exists r. split; [exact Hr|]. rewrite Hq. cbn [hhi]. lra.
Qed.

Lemma concentration_risk_refines (l : list dict) :
  forallb (num_field "allocation_percent") l = true ->
  exists r, _calculate_concentration_risk l = Ok r /\ r == spec_concentration_risk l.
Proof.
  destruct l as [|a l]; intros H.
  - exists 0. split; reflexivity.
  - unfold _calculate_concentration_risk.
    assert (Hm : exists v, max_from (allocation_percent a) (map allocation_percent l) = Ok v).
    { cbn [forallb] in H. apply andb_prop in H as [Ha Hl]. apply max_from_num.
      - rewrite (allocation_percent_num a Ha). reflexivity.
      - apply forallb_map_percent, Hl. }
    destruct Hm as [v Hv]. rewrite Hv. run_bind.
    destruct (sum_squares_hhi (a :: l) H 0) as (r & Hr & Hq).
    rewrite Hr. cbn [bind]. eexists. split; [reflexivity|].
    rewrite min2_Qmin. unfold spec_concentration_risk.
    rewrite Hq. apply Q.min_compat; [|reflexivity]. field_simplify_eq; lra.
Qed.


(** With every percentage equal to [q], the index is [n * q * q]. *)
Lemma hhi_all_percent (q : Q) (l : list dict) :
  forallb (has_percent q) l = true -> hhi l == len l * (q * q).
Proof.
  induction l as [|a l IH]; intros H.
  - unfold len. cbn. ring.
  - cbn [forallb] in H. apply andb_prop in H as [Ha Hl].
    cbn [hhi]. rewrite (IH Hl).
    assert (Hp : percent a == q).
    { unfold has_percent in Ha. unfold percent, num_of.
      destruct (a !! "allocation_percent") as [[]|]; try discriminate.
      apply Qeq_bool_iff, Ha. }
    rewrite Hp. unfold len. cbn [length].
    rewrite Nat2Z.inj_succ, <- Z.add_1_r, inject_Z_plus. ring.
Qed.

End Helpers.

Import Py RiskModels RiskSpec.
#[local] Open Scope Q_scope.

(** C5, as stated: five equal positions of 20% would score 5.  The code
    gives 5 * 20^2 / 100 = 20. *)
Lemma C5_five_positions_do_not_score_5 :
  exists r, _calculate_concentration_risk Examples.five_positions = Ok r
            /\ r == 20 /\ ~ r == 5.
Proof.
  eexists. split; [vm_compute; reflexivity|]. split.
  - reflexivity.
  - intros H. vm_compute in H. discriminate.
Qed.

(** C5, amended: on allocations whose percentage is a number or absent,
    [_calculate_concentration_risk] returns the HHI divided by 100 and
    clamped to 100 (0 on the empty list); a single position of 100% scores
    100 and five positions of 20% each score 20. *)
Theorem C5_concentration_risk_is_clamped_hhi (l : list dict) :
  forallb (num_field "allocation_percent") l = true ->
  exists r,
    _calculate_concentration_risk l = Ok r
    /\ r == spec_concentration_risk l
    /\ (l = [] -> r == 0)
    /\ (length l = 1%nat -> forallb (has_percent 100) l = true -> r == 100)
    /\ (length l = 5%nat -> forallb (has_percent 20) l = true -> r == 20).
Proof.
  intros H. destruct (concentration_risk_refines l H) as (r & Hr & Hq).
  exists r. split; [exact Hr|]. split; [exact Hq|]. repeat split.
  - intros ->. exact Hq.
  - intros Hlen Hall. rewrite Hq. destruct l as [|a l]; [discriminate|].
    unfold spec_concentration_risk. rewrite (hhi_all_percent 100 _ Hall).
    unfold len. rewrite Hlen. rewrite Q.min_r; [reflexivity|].
    vm_compute. discriminate.
  - intros Hlen Hall. rewrite Hq. destruct l as [|a l]; [discriminate|].
    unfold spec_concentration_risk. rewrite (hhi_all_percent 20 _ Hall).
    unfold len. rewrite Hlen. rewrite Q.min_l; [reflexivity|].
    vm_compute. discriminate.
Qed.

Lemma C5_concentration_risk_witness :
  (exists r, _calculate_concentration_risk Examples.single_position = Ok r /\ r == 100)
  /\ (exists r, _calculate_concentration_risk Examples.five_positions = Ok r /\ r == 20).
Proof.
  split.
  - destruct (C5_concentration_risk_is_clamped_hhi Examples.single_position)
      as (r & Hr & _ & _ & H1 & _); [reflexivity|].
    exists r. split; [exact Hr|]. apply H1; reflexivity.
  - destruct (C5_concentration_risk_is_clamped_hhi Examples.five_positions)
      as (r & Hr & _ & _ & _ & H5); [reflexivity|].
    exists r. split; [exact Hr|]. apply H5; reflexivity.
Defined.

(** *** Protocol risk *)

Section ProtocolRisk.

Lemma well_formed_fields (a : dict) :
  well_formed a = true ->
  str_field "protocol" a = true /\ num_field "allocation_percent" a = true
  /\ num_field "risk_score" a = true /\ num_field "expected_apr" a = true.
Proof.
  unfold well_formed. intros H.
  apply andb_prop in H as [H Hapr]. apply andb_prop in H as [H Hrisk].
  apply andb_prop in H as [Hp Hpct]. auto.
Qed.

Lemma lower_protocol (a : dict) :
  str_field "protocol" a = true ->
  lower (get a "protocol" (PStr "")) = Ok (protocol_key a).
Proof.
  unfold str_field, get, protocol_key.
  destruct (a !! "protocol") as [[]|]; simpl; congruence.
Qed.

Lemma protocol_risk_loop_refines (l : list dict) :
  forallb well_formed l = true ->
  forall total_risk total_w, exists tr tw,
    protocol_risk_loop l total_risk total_w = Ok (tr, tw)
    /\ tr == total_risk + weighted_risk l
    /\ tw == total_w + total_weight l.
Proof.
  induction l as [|a l IH]; intros H total_risk total_w.
  - exists total_risk, total_w. simpl. repeat split; lra.
  - cbn [forallb] in H. apply andb_prop in H as [Ha Hl].
    destruct (well_formed_fields a Ha) as (Hp & Hpct & Hrisk & _).
    cbn [protocol_risk_loop]. rewrite (lower_protocol a Hp).
    rewrite (allocation_percent_num a Hpct).
    cbn [mbind outcome_bind bind div_num].
    rewrite (num_field_get "risk_score" a _ Hrisk).
    cbn [mul_num bind].
    destruct (IH Hl
      (total_risk + num_of "risk_score" (default 50 (protocol_risk_ratings !! protocol_key a)) a
                    * (percent a / 100))
      (total_w + percent a / 100)) as (tr & tw & Hloop & Htr & Htw).
    exists tr, tw. split; [exact Hloop|].
    cbn [weighted_risk total_weight]. unfold position_risk, base_rate, weight.
    split; [rewrite Htr | rewrite Htw]; ring.
Qed.

Lemma Qeq_bool_compat (a b c : Q) : a == b -> Qeq_bool a c = Qeq_bool b c.
Proof.
  intros Hab. destruct (Qeq_bool b c) eqn:E.
  - apply Qeq_bool_iff. apply Qeq_bool_iff in E. rewrite Hab. exact E.
  - destruct (Qeq_bool a c) eqn:E'; [|reflexivity].
    apply Qeq_bool_iff in E'. rewrite Hab in E'.
    apply Qeq_bool_iff in E'. congruence.
Qed.

Lemma protocol_risk_refines (l : list dict) :
  forallb well_formed l = true ->
  exists r, _calculate_protocol_risk l = Ok r /\ r == spec_protocol_risk l.
Proof.
  intros H. destruct l as [|a l].
  - exists 0. split; reflexivity.
  - destruct (protocol_risk_loop_refines (a :: l) H 0 0) as (tr & tw & Hloop & Htr & Htw).
    unfold _calculate_protocol_risk. rewrite Hloop. run_bind.
    unfold spec_protocol_risk.
    assert (Htw' : tw == total_weight (a :: l)) by (rewrite Htw; ring).
    assert (Htr' : tr == weighted_risk (a :: l)) by (rewrite Htr; ring).
    rewrite (Qeq_bool_compat _ _ 0 Htw').
    destruct (Qeq_bool (total_weight (a :: l)) 0) eqn:E.
    + exists 0. split; reflexivity.
    + exists (tr / tw). split; [reflexivity|]. rewrite Htr', Htw'. reflexivity.
Qed.

(** A protocol outside the table gets the default 50. *)
Lemma base_rate_unknown (p : string) :
  p ∉ ["minswap"; "sundaeswap"; "liqwid"; "indigo"; "muesliswap"; "wingriders"]%string ->
  base_rate p = 50.
Proof.
  intros Hp. unfold base_rate, protocol_risk_ratings. cbn [list_to_map foldr uncurry fst snd].
  rewrite !lookup_insert_ne; [rewrite lookup_empty; reflexivity | ..];
    intros <-; apply Hp; set_solver.
Qed.

End ProtocolRisk.

(** C6: on well-formed allocations [_calculate_protocol_risk] returns the
    average of the allocations' risk scores weighted by
    [allocation_percent / 100]; an allocation without a risk score counts
    with the base rate of its protocol (minswap 25, sundaeswap 30, liqwid 35,
    indigo 40, and 50 for a protocol outside the table); the result is 0
    whenever the total weight is 0, the empty list included. *)
Theorem C6_protocol_risk_is_weighted_average (l : list dict) :
  forallb well_formed l = true ->
  exists r,
    _calculate_protocol_risk l = Ok r
    /\ (total_weight l == 0 -> r == 0)
    /\ (~ total_weight l == 0 -> r == weighted_risk l / total_weight l)
    /\ (forall a, a ∈ l -> a !! "risk_score" = None ->
          position_risk a = base_rate (protocol_key a))
    /\ (forall a q, a ∈ l -> a !! "risk_score" = Some (PNum q) -> position_risk a = q)
    /\ base_rate "minswap" == 25 /\ base_rate "sundaeswap" == 30
    /\ base_rate "liqwid" == 35 /\ base_rate "indigo" == 40
    /\ (forall p,
          p ∉ ["minswap"; "sundaeswap"; "liqwid"; "indigo"; "muesliswap"; "wingriders"]%string ->
          base_rate p = 50).
Proof.
  intros H. destruct (protocol_risk_refines l H) as (r & Hr & Hq).
  exists r. split; [exact Hr|].
  unfold spec_protocol_risk in Hq. repeat split.
  - intros Hz. apply Qeq_bool_iff in Hz. rewrite Hz in Hq. exact Hq.
  - intros Hnz. destruct (Qeq_bool (total_weight l) 0) eqn:E; [|exact Hq].
    apply Qeq_bool_iff in E. contradiction.
  - intros a _ Hnone. unfold position_risk, num_of. rewrite Hnone. reflexivity.
  - intros a q _ Hsome. unfold position_risk, num_of. rewrite Hsome. reflexivity.
  - exact base_rate_unknown.
Qed.

Lemma C6_protocol_risk_witness :
  exists r, _calculate_protocol_risk Examples.scenario_allocations = Ok r
            /\ r == 29.
Proof.
  destruct (C6_protocol_risk_is_weighted_average Examples.scenario_allocations)
    as (r & Hr & _ & Havg & _); [reflexivity|].
  exists r. split; [exact Hr|]. rewrite Havg.
  - vm_compute. reflexivity.
  - intros Hz. vm_compute in Hz. discriminate.
Defined.

(** *** APR risk *)

Section AprRisk.

Lemma apr_score_num (q : Q) :
  exists s, apr_score (PNum q) = Ok s /\ 10 <= s <= 80.
Proof.
  unfold apr_score. cbn [gt_num mbind outcome_bind bind].
  destruct (Qltb 100 q); [exists 80; split; [reflexivity | lra]|].
  destruct (Qltb 50 q); [exists 60; split; [reflexivity | lra]|].
  destruct (Qltb 30 q); [exists 40; split; [reflexivity | lra]|].
  destruct (Qltb 15 q); [exists 20; split; [reflexivity | lra]|].
  exists 10. split; [reflexivity | lra].
Qed.

Lemma apr_scores_bounded (l : list dict) :
  forallb (num_field "expected_apr") l = true ->
  exists ss, apr_scores l = Ok ss /\ length ss = length l
             /\ Forall (fun s => 10 <= s <= 80) ss.
Proof.
  induction l as [|a l IH]; intros H.
  - exists []. simpl. auto.
  - cbn [forallb] in H. apply andb_prop in H as [Ha Hl].
    destruct (IH Hl) as (ss & Hss & Hlen & Hall).
    cbn [apr_scores]. rewrite (num_field_get "expected_apr" a 0 Ha).
    destruct (apr_score_num (num_of "expected_apr" 0 a)) as (s & Hs & Hb).
    rewrite Hs, Hss. run_bind.
    exists (s :: ss). split; [reflexivity|]. split; [simpl; congruence|].
    constructor; assumption.
Qed.

(** Allocations that carry no APR all score the lowest step. *)
Lemma apr_scores_no_data (l : list dict) :
  Forall (fun a : dict => a !! "expected_apr" = None) l ->
  exists ss, apr_scores l = Ok ss /\ length ss = length l
             /\ Forall (fun s => s == 10) ss.
Proof.
  induction 1 as [|a l Ha _ IH].
  - exists []. simpl. auto.
  - destruct IH as (ss & Hss & Hlen & Hall).
    cbn [apr_scores]. unfold get at 1. rewrite Ha. cbn [default].
    rewrite Hss. exists (10 :: ss). split; [reflexivity|].
    split; [simpl; congruence|]. constructor; [reflexivity | assumption].
Qed.

Lemma fold_left_Qplus_bounds (lo hi : Q) (ss : list Q) :
  Forall (fun s => lo <= s <= hi) ss ->
  forall acc,
    acc + len ss * lo <= fold_left Qplus ss acc <= acc + len ss * hi.
Proof.
  induction 1 as [|s ss Hs _ IH]; intros acc.
  - unfold len. cbn [length fold_left]. change (inject_Z (Z.of_nat 0)) with 0. lra.
  - cbn [fold_left]. specialize (IH (acc + s)).
    unfold len in *. cbn [length].
    rewrite Nat2Z.inj_succ, <- Z.add_1_r, inject_Z_plus.
    change (inject_Z 1) with 1. lra.
Qed.

Lemma len_pos {A : Type} (l : list A) : l <> [] -> 0 < len l.
Proof.
  destruct l as [|x l]; [congruence|]. intros _. unfold len.
  change 0 with (inject_Z 0). rewrite <- Zlt_Qlt. cbn [length]. lia.
Qed.

Lemma average_bounds (lo hi : Q) (ss : list Q) :
  ss <> [] -> Forall (fun s => lo <= s <= hi) ss ->
  lo <= sum_list ss / len ss <= hi.
Proof.
  intros Hne Hall. pose proof (len_pos ss Hne) as Hpos.
  pose proof (fold_left_Qplus_bounds lo hi ss Hall 0) as [Hlo Hhi].
  unfold sum_list. split.
  - apply Qle_shift_div_l; [exact Hpos|]. lra.
  - apply Qle_shift_div_r; [exact Hpos|]. lra.
Qed.

Lemma Forall_Qeq_bounds (c : Q) (ss : list Q) :
  Forall (fun s => s == c) ss -> Forall (fun s => c <= s <= c) ss.
Proof.
  intros H. eapply Forall_impl; [exact H|].
  intros s Hs. cbn beta in *. rewrite Hs. lra.
Qed.

End AprRisk.

(** C10: on a non-empty list of allocations whose APR is a number or
    absent, [_calculate_apr_risk] returns a value between 10 and 80, never
    0; when no allocation carries an APR the value is 10, which puts
    10 * 0.3 = 3 points into the overall score. *)
Theorem C10_apr_risk_between_10_and_80 (l : list dict) :
  l <> [] ->
  forallb (num_field "expected_apr") l = true ->
  exists r,
    _calculate_apr_risk l = Ok r
    /\ 10 <= r <= 80
    /\ ~ r == 0
    /\ (Forall (fun a : dict => a !! "expected_apr" = None) l ->
        r == 10
        /\ forall concentration protocol,
             overall_risk concentration protocol r
             == overall_risk concentration protocol 0 + 3).
Proof.
  intros Hne H. destruct (apr_scores_bounded l H) as (ss & Hss & Hlen & Hall).
  assert (Hssne : ss <> []).
  { destruct ss; [|congruence]. destruct l; [congruence | discriminate]. }
  exists (sum_list ss / len ss).
  assert (Hrun : _calculate_apr_risk l = Ok (sum_list ss / len ss)).
  { unfold _calculate_apr_risk. destruct l as [|a l]; [congruence|].
    rewrite Hss. run_bind.
    destruct ss; [congruence | reflexivity]. }
  pose proof (average_bounds 10 80 ss Hssne Hall) as Hb.
  split; [exact Hrun|]. split; [exact Hb|]. split.
  - intros Hz. rewrite Hz in Hb. lra.
  - intros Hnone. destruct (apr_scores_no_data l Hnone) as (ss' & Hss' & _ & Hten).
    assert (ss' = ss) by congruence. subst ss'.
    pose proof (average_bounds 10 10 ss Hssne (Forall_Qeq_bounds 10 ss Hten)) as Hb10.
    assert (Hr : sum_list ss / len ss == 10) by lra.
    split; [exact Hr|]. intros c p. unfold overall_risk. rewrite Hr. ring.
Qed.

Lemma C10_apr_risk_witness :
  exists r, _calculate_apr_risk Examples.five_positions = Ok r /\ r == 10.
Proof.
  destruct (C10_apr_risk_between_10_and_80 Examples.five_positions)
    as (r & Hr & _ & _ & Hten); [discriminate | reflexivity |].
  exists r. split; [exact Hr|]. apply Hten.
  repeat constructor.
Defined.

(** *** Diversification *)

Section Diversification.

Lemma distinct_strings_distinct (vs : list pyval) :
  distinct_strings vs = true -> distinct vs = vs.
Proof.
  induction vs as [|v vs IH]; [reflexivity|].
  cbn [distinct_strings]. destruct v as [|q|s]; try discriminate.
  intros H. apply andb_prop in H as [Hfresh Hrest].
  cbn [distinct]. rewrite (IH Hrest).
  apply negb_true_iff in Hfresh. rewrite Hfresh. reflexivity.
Qed.

Lemma has_percent_num_field (q : Q) (a : dict) :
  has_percent q a = true -> num_field "allocation_percent" a = true.
Proof.
  unfold has_percent, num_field.
  destruct (a !! "allocation_percent") as [[]|]; simpl; congruence.
Qed.

Lemma has_percent_percent (q : Q) (a : dict) :
  has_percent q a = true -> percent a == q.
Proof.
  unfold has_percent, percent, num_of.
  destruct (a !! "allocation_percent") as [[]|]; try discriminate.
  apply Qeq_bool_iff.
Qed.

(** With every percentage at the ideal share, the squared deviations add
    nothing. *)
Lemma squared_deviations_zero (ideal : Q) (l : list dict) :
  forallb (has_percent ideal) l = true ->
  forall acc, exists r,
    sum_with (fun alloc => d ← sub_num (allocation_percent alloc) ideal; Ok (d * d))
             acc l = Ok r
    /\ r == acc.
Proof.
  induction l as [|a l IH]; intros H acc.
  - exists acc. split; reflexivity.
  - cbn [forallb] in H. apply andb_prop in H as [Ha Hl].
    cbn [sum_with].
    rewrite (allocation_percent_num a (has_percent_num_field _ _ Ha)).
    cbn [sub_num mbind outcome_bind bind].
    destruct (IH Hl (acc + (percent a - ideal) * (percent a - ideal))) as (r & Hr & Hq).
    exists r. split; [exact Hr|]. rewrite Hq, (has_percent_percent _ _ Ha). ring.
Qed.

Lemma diversification_equal_positions (n : nat) (l : list dict) :
  (1 <= n)%nat -> equal_positions n l = true ->
  exists r, _calculate_diversification l = Ok r /\ r == equal_positions_score n.
Proof.
  intros Hn H. unfold equal_positions in H.
  apply andb_prop in H as [H Hdist]. apply andb_prop in H as [Hlen Hshare].
  apply Nat.eqb_eq in Hlen.
  destruct l as [|a l]; [simpl in Hlen; lia|].
  unfold _calculate_diversification.
  fold (protocol_of). change (fun alloc : dict => default PNone (alloc !! "protocol"))
    with protocol_of.
  rewrite (distinct_strings_distinct _ Hdist).
  assert (Hlenmap : len (map protocol_of (a :: l)) = len (a :: l)).
  { unfold len. rewrite length_map. reflexivity. }
  rewrite Hlenmap. rewrite Hlen.
  assert (Hlenq : len (a :: l) = inject_Z (Z.of_nat n)) by (unfold len; rewrite Hlen; reflexivity).
  rewrite Hlenq.
  unfold equal_positions_score.
  destruct (n =? 1)%nat eqn:E1.
  - run_bind. eexists. split; [reflexivity|].
    apply Nat.eqb_eq in E1. rewrite E1. rewrite min2_Qmin.
    apply Q.min_compat; [|reflexivity]. vm_compute. reflexivity.
  - destruct (squared_deviations_zero _ _ Hshare 0) as (sq & Hsq & Hz).
    rewrite Hsq. run_bind. eexists. split; [reflexivity|].
    rewrite min2_Qmin. apply Q.min_compat; [|reflexivity].
    rewrite max2_Qmax. rewrite Hz.
    assert (Hnpos : 0 < inject_Z (Z.of_nat n)).
    { change 0 with (inject_Z 0). rewrite <- Zlt_Qlt. lia. }
    assert (Hv : 100 - 0 / inject_Z (Z.of_nat n) == 100) by (field; lra).
    rewrite Hv, Q.max_r by lra. field.
Qed.

Lemma equal_positions_score_values :
  equal_positions_score 1 == 14 /\ equal_positions_score 2 == 58
  /\ equal_positions_score 3 == 72 /\ equal_positions_score 4 == 86
  /\ equal_positions_score 5 == 100 /\ equal_positions_score 6 == 100.
Proof. repeat split. Qed.

Lemma equal_positions_score_capped (n : nat) :
  (5 <= n)%nat -> equal_positions_score n == 100.
Proof.
  intros Hn. unfold equal_positions_score.
  assert (Hne : (n =? 1)%nat = false) by (apply Nat.eqb_neq; lia). rewrite Hne.
  apply Q.min_r.
  assert (5 <= inject_Z (Z.of_nat n)).
  { change 5 with (inject_Z 5). rewrite <- Zle_Qle. lia. }
  lra.
Qed.

End Diversification.

(** C7, as stated: the score for six equal positions would exceed the
    score for five.  Both are 100, the cap. *)
Lemma C7_six_positions_do_not_beat_five :
  equal_positions 5 Examples.five_positions = true
  /\ equal_positions 6 Examples.six_positions = true
  /\ exists r5 r6,
       _calculate_diversification Examples.five_positions = Ok r5
       /\ _calculate_diversification Examples.six_positions = Ok r6
       /\ ~ r5 < r6.
Proof.
  split; [reflexivity|]. split; [reflexivity|].
  eexists. eexists. split; [vm_compute; reflexivity|].
  split; [vm_compute; reflexivity|].
  intros H. vm_compute in H. discriminate.
Qed.

(** C7, amended: for 1 <= N <= 4, N+1 equal positions in N+1 distinct
    protocols score strictly more than N such positions; from N = 5 on the
    score is the cap 100, so it no longer increases. *)
Theorem C7_diversification_increases_up_to_five (n : nat) (l l' : list dict) :
  (1 <= n)%nat ->
  equal_positions n l = true ->
  equal_positions (S n) l' = true ->
  exists r r',
    _calculate_diversification l = Ok r
    /\ _calculate_diversification l' = Ok r'
    /\ r <= r'
    /\ ((n <= 4)%nat -> r < r')
    /\ ((5 <= n)%nat -> r == 100 /\ r' == 100).
Proof.
  intros Hn Hl Hl'.
  destruct (diversification_equal_positions n l Hn Hl) as (r & Hr & Hq).
  destruct (diversification_equal_positions (S n) l' (le_S _ _ Hn) Hl') as (r' & Hr' & Hq').
  exists r, r'. split; [exact Hr|]. split; [exact Hr'|].
  assert (Hsmall : (n <= 4)%nat -> r < r').
  { intros H4. rewrite Hq, Hq'.
    assert (Hcases : n = 1%nat \/ n = 2%nat \/ n = 3%nat \/ n = 4%nat) by lia.
    destruct Hcases as [-> | [-> | [-> | ->]]]; reflexivity. }
  assert (Hbig : (5 <= n)%nat -> r == 100 /\ r' == 100).
  { intros H5. rewrite Hq, Hq'.
    split; apply equal_positions_score_capped; lia. }
  split; [|split; assumption].
  destruct (le_lt_dec n 4) as [H4 | H5].
  - apply Qlt_le_weak, Hsmall, H4.
  - destruct (Hbig H5) as [-> ->]. lra.
Qed.

Lemma C7_diversification_witness :
  exists r r',
    _calculate_diversification Examples.single_position = Ok r
    /\ _calculate_diversification Examples.two_positions = Ok r'
    /\ r < r'.
Proof.
  destruct (C7_diversification_increases_up_to_five 1
              Examples.single_position Examples.two_positions)
    as (r & r' & Hr & Hr' & _ & Hlt & _); [lia | reflexivity | reflexivity |].
  exists r, r'. split; [exact Hr|]. split; [exact Hr'|]. apply Hlt. lia.
Defined.

(** *** The assessment and its approval flag *)

Section Assessment.

Lemma squared_deviations_total (ideal : Q) (l : list dict) :
  forallb (num_field "allocation_percent") l = true ->
  forall acc, exists r,
    sum_with (fun alloc => d ← sub_num (allocation_percent alloc) ideal; Ok (d * d))
             acc l = Ok r.
Proof.
  induction l as [|a l IH]; intros H acc.
  - exists acc. reflexivity.
  - cbn [forallb] in H. apply andb_prop in H as [Ha Hl].
    cbn [sum_with]. rewrite (allocation_percent_num a Ha).
    cbn [sub_num mbind outcome_bind bind]. apply IH, Hl.
Qed.

Lemma diversification_total (l : list dict) :
  forallb (num_field "allocation_percent") l = true ->
  exists r, _calculate_diversification l = Ok r.
Proof.
  intros H. destruct l as [|a l]; [exists 0; reflexivity|].
  unfold _calculate_diversification.
  destruct (length (a :: l) =? 1)%nat.
  - run_bind. eauto.
  - destruct (squared_deviations_total (100 / len (a :: l)) _ H 0) as (sq & Hsq).
    rewrite Hsq. run_bind. eauto.
Qed.

Lemma apr_risk_total (l : list dict) :
  forallb (num_field "expected_apr") l = true ->
  exists r, _calculate_apr_risk l = Ok r.
Proof.
  intros H. destruct l as [|a l]; [exists 0; reflexivity|].
  destruct (apr_scores_bounded _ H) as (ss & Hss & _ & _).
  unfold _calculate_apr_risk. rewrite Hss. run_bind.
  destruct ss; eauto.
Qed.

Lemma forallb_weaken {A : Type} (p q : A -> bool) (l : list A) :
  (forall x, p x = true -> q x = true) ->
  forallb p l = true -> forallb q l = true.
Proof.
  intros Hpq. induction l as [|a l IH]; [reflexivity|].
  cbn [forallb]. intros H. apply andb_prop in H as [Ha Hl].
  rewrite (Hpq a Ha), (IH Hl). reflexivity.
Qed.

(** On well-formed allocations the analysis returns a report. *)
Lemma analyze_strategy_total (strategy : Strategy) :
  forallb well_formed (default [] (recommended_allocations strategy)) = true ->
  exists analysis, analyze_strategy strategy = Ok analysis.
Proof.
  intros H. unfold analyze_strategy.
  set (allocations := default [] (recommended_allocations strategy)) in *.
  assert (Hpct : forallb (num_field "allocation_percent") allocations = true).
  { revert H. apply forallb_weaken. intros a Ha. apply (well_formed_fields a Ha). }
  assert (Hapr : forallb (num_field "expected_apr") allocations = true).
  { revert H. apply forallb_weaken. intros a Ha. apply (well_formed_fields a Ha). }
  destruct (concentration_risk_refines _ Hpct) as (c & Hc & _).
  destruct (protocol_risk_refines _ H) as (p & Hp & _).
  destruct (apr_risk_total _ Hapr) as (a & Ha).
  destruct (diversification_total _ Hpct) as (d & Hd).
  rewrite Hc, Hp, Ha, Hd. run_bind. eauto.
Qed.

End Assessment.

(** C4: every assessment that [assess_strategy] returns has
    [approved] true exactly when the reported [overall_risk_score] is at
    most 70, and on well-formed allocations it does return one; the success
    payload of [SimpleRiskAgent.execute] satisfies the same equation. *)
Theorem C4_approved_iff_score_at_most_70 :
  (forall price create_payment strategy requester r,
      RiskGuardian.assess_strategy price create_payment strategy requester = Ok r ->
      (RiskGuardian.approved r = true
       <-> overall_risk_score (RiskGuardian.risk_analysis r) <= 70))
  /\ (forall price create_payment strategy,
        forallb well_formed (default [] (recommended_allocations strategy)) = true ->
        exists r, RiskGuardian.assess_strategy price create_payment strategy None = Ok r)
  /\ (forall llm_invoke input_data,
        let r := SimpleAgents.SimpleRiskAgent_execute llm_invoke input_data in
        SimpleAgents.success r = true ->
        exists a s,
          SimpleAgents.approved r = Some a
          /\ SimpleAgents.overall_risk_score r = Some s
          /\ (a = true <-> s <= 70)).
Proof.
  split; [|split].
  - intros price cp strategy requester r.
    unfold RiskGuardian.assess_strategy.
    destruct (analyze_strategy strategy) as [analysis|e]; [|discriminate].
    run_bind.
    destruct (RiskGuardian.truthy requester).
    + destruct (cp (default "" requester)) as [paid|e]; [|discriminate].
      cbn [bind]. intros [= <-]. cbn. apply Qle_bool_iff.
    + intros [= <-]. cbn. apply Qle_bool_iff.
  - intros price cp strategy Hwf.
    destruct (analyze_strategy_total strategy Hwf) as (analysis & Ha).
    unfold RiskGuardian.assess_strategy. rewrite Ha.
    cbn [mbind outcome_bind bind RiskGuardian.truthy]. eauto.
  - intros llm input r. subst r. destruct llm as [content|e]; cbn; [|discriminate].
    intros _. exists true, (275 # 10).
    split; [reflexivity|]. split; [reflexivity|].
    split; [intros _; vm_compute; discriminate | reflexivity].
Qed.

Lemma C4_approved_witness :
  exists r,
    RiskGuardian.assess_strategy (2 # 100) (fun _ => Raise (MkExn RuntimeError "offline"))
      Examples.scenario_strategy None = Ok r
    /\ RiskGuardian.approved r = true
    /\ overall_risk_score (RiskGuardian.risk_analysis r) <= 70.
Proof.
  destruct C4_approved_iff_score_at_most_70 as (Hiff & Htotal & _).
  destruct (Htotal (2 # 100) (fun _ => Raise (MkExn RuntimeError "offline"))
              Examples.scenario_strategy) as (r & Hr); [reflexivity|].
  exists r. split; [exact Hr|].
  assert (Happ : RiskGuardian.approved r = true).
  { vm_compute in Hr. injection Hr as <-. reflexivity. }
  split; [exact Happ|]. apply (Hiff _ _ _ _ _ Hr), Happ.
Defined.

(** *** Internal failures of the scorer *)

Section Failures.

Lemma validate_transaction_body_raises (tx : dict) :
  str_field "protocol" tx = false \/ num_field "amount" tx = false ->
  exists e, validate_transaction_body tx = Raise e.
Proof.
  intros H. unfold validate_transaction_body.
  destruct (lower (get tx "protocol" (PStr ""))) as [protocol|e] eqn:Hlow;
    cbn [mbind outcome_bind bind]; [|eauto].
  destruct H as [Hp | Ha].
  - exfalso. revert Hp Hlow. unfold str_field, get.
    destruct (tx !! "protocol") as [[]|]; simpl; congruence.
  - revert Ha. unfold num_field, get.
    destruct (tx !! "amount") as [[]|]; simpl; try congruence; eauto.
Qed.

Lemma validate_transaction_body_returns (tx : dict) :
  str_field "protocol" tx = true -> num_field "amount" tx = true ->
  exists v, validate_transaction_body tx = Ok v.
Proof.
  intros Hp Ha. unfold validate_transaction_body.
  rewrite (lower_protocol tx Hp). rewrite (num_field_get "amount" tx 0 Ha).
  cbn [mbind outcome_bind bind gt_num].
  destruct (Qltb 100000 _); cbn [bind]; eauto.
Qed.

End Failures.

(** C8, as stated: an internal exception of [validate_transaction] or
    [analyze_portfolio_health] would leave the function as an error.  A
    transaction whose protocol is [null] makes [.lower()] raise, and the
    function returns the well-formed payload with score 100; a position
    whose TVL is text makes the comparison raise, and the function returns
    a report with health 0. *)
Lemma C8_internal_failure_is_returned_as_score :
  (exists e, validate_transaction_body Examples.tx_null_protocol = Raise e)
  /\ validate_transaction Examples.tx_null_protocol
     = Ok {| approved := false;
             risk_score := 100;
             validation_warnings :=
               ["Validation error: 'NoneType' object has no attribute 'lower'"] |}
  /\ (exists e, analyze_portfolio_health_body Examples.portfolio_text_tvl = Raise e)
  /\ exists report,
       analyze_portfolio_health Examples.portfolio_text_tvl = Ok report
       /\ overall_health_score report = 0.
Proof.
  split; [eexists; vm_compute; reflexivity|].
  split; [vm_compute; reflexivity|].
  split; [eexists; vm_compute; reflexivity|].
  eexists. split; vm_compute; reflexivity.
Qed.

(** C8, amended: [validate_transaction] and [analyze_portfolio_health]
    never raise.  When the body of [validate_transaction] fails (a protocol
    that is not a string, an amount that is not a number) the result is the
    rejecting payload with [risk_score] 100 and one warning that carries
    the error text; when the body of [analyze_portfolio_health] fails the
    result is a report with [overall_health_score] 0 and the error text.
    Of the three entry points only [analyze_strategy] lets the exception
    through. *)
Theorem C8_failures_are_returned_as_scores :
  (forall tx, exists v, validate_transaction tx = Ok v)
  /\ (forall tx,
        str_field "protocol" tx = false \/ num_field "amount" tx = false ->
        exists e,
          validate_transaction_body tx = Raise e
          /\ validate_transaction tx
             = Ok {| approved := false;
                     risk_score := 100;
                     validation_warnings := ["Validation error: " +:+ exn_str e] |})
  /\ (forall tx,
        str_field "protocol" tx = true -> num_field "amount" tx = true ->
        exists v, validate_transaction_body tx = Ok v /\ validate_transaction tx = Ok v)
  /\ (forall portfolio, exists report, analyze_portfolio_health portfolio = Ok report)
  /\ (forall portfolio e,
        analyze_portfolio_health_body portfolio = Raise e ->
        analyze_portfolio_health portfolio
        = Ok {| overall_health_score := 0;
                health_concentration_risk := None;
                health_liquidity_risk := None;
                num_positions := None;
                total_value_ada := None;
                health_error := Some (exn_str e) |})
  /\ (forall strategy e,
        _calculate_concentration_risk (default [] (recommended_allocations strategy))
        = Raise e ->
        analyze_strategy strategy = Raise e).
Proof.
  split; [|split; [|split; [|split; [|split]]]].
  - intros tx. unfold validate_transaction.
    destruct (validate_transaction_body tx); eauto.
  - intros tx H. destruct (validate_transaction_body_raises tx H) as (e & He).
    exists e. split; [exact He|]. unfold validate_transaction. rewrite He. reflexivity.
  - intros tx Hp Ha. destruct (validate_transaction_body_returns tx Hp Ha) as (v & Hv).
    exists v. split; [exact Hv|]. unfold validate_transaction. rewrite Hv. reflexivity.
  - intros p. unfold analyze_portfolio_health.
    destruct (analyze_portfolio_health_body p); eauto.
  - intros p e He. unfold analyze_portfolio_health. rewrite He. reflexivity.
  - intros s e He. unfold analyze_strategy. rewrite He. reflexivity.
Qed.

Lemma C8_failures_witness :
  exists e,
    validate_transaction_body Examples.tx_null_protocol = Raise e
    /\ validate_transaction Examples.tx_null_protocol
       = Ok {| approved := false;
               risk_score := 100;
               validation_warnings := ["Validation error: " +:+ exn_str e] |}.
Proof.
  destruct C8_failures_are_returned_as_scores as (_ & Hfail & _).
  apply (Hfail Examples.tx_null_protocol). left. reflexivity.
Defined.

(** ** Proofs: the job protocol *)

Section Jobs.

Import Mip003.

Lemma agent_config_unknown (app : AppState) (t : string) :
  t ∉ ["market"; "strategy"; "risk"]%string -> agent_config app !! t = None.
Proof.
  intros Ht. unfold agent_config.
  rewrite !lookup_insert_ne; [apply lookup_empty | ..];
    intros <-; apply Ht; set_solver.
Qed.

Lemma agent_config_known (app : AppState) (t : string) (config : AgentConfig) :
  agent_config app !! t = Some config ->
  t ∈ ["market"; "strategy"; "risk"]%string.
Proof.
  intros H. destruct (decide (t ∈ ["market"; "strategy"; "risk"]%string)) as [|Hn];
    [assumption|].
  rewrite (agent_config_unknown app t Hn) in H. discriminate.
Qed.

(** A poll in which no query reports the funds locked makes every query of
    its budget and sleeps between two consecutive queries. *)
Lemma poll_loop_never_locked (check : nat -> bool) (max_attempts interval : nat) :
  (forall k, (1 <= k <= max_attempts)%nat -> check k = false) ->
  forall remaining queries slept,
    (remaining <= max_attempts)%nat ->
    PaymentService.poll_loop check max_attempts interval remaining queries slept
    = (false, (queries + remaining)%nat,
       (slept + (remaining - 1) * interval)%nat).
Proof.
  intros Hcheck. induction remaining as [|r IH]; intros queries slept Hle.
  - cbn [PaymentService.poll_loop].
    triple_eq; [reflexivity | lia | lia].
  - cbn [PaymentService.poll_loop].
    rewrite Hcheck by lia. rewrite IH by lia.
    destruct (max_attempts - r <? max_attempts)%nat eqn:E.
    + apply Nat.ltb_lt in E.
      triple_eq; [reflexivity | lia | nia].
    + apply Nat.ltb_ge in E. assert (r = 0)%nat by lia. subst r.
      triple_eq; [reflexivity | lia | lia].
Qed.

End Jobs.

Import Mip003.

(** A request that passes both checks stores the job and schedules its
    monitor. *)
Lemma start_job_accepts (app : AppState) (req : StartJobRequest)
    (job_id payment_id : string) (now : nat) (st : State)
    (config : AgentConfig) (agent : Agent) :
  agent_config app !! req_agent_type req = Some config ->
  cfg_agent config = Some agent ->
  status_of (start_job app req job_id payment_id now st).2 job_id = Some AWAITING_PAYMENT
  /\ background_tasks (start_job app req job_id payment_id now st).2
     = background_tasks st
       ++ [MkTask job_id payment_id agent (req_input_data req) Sleeping].
Proof.
  intros Hc Ha. unfold start_job. rewrite Hc, Ha. cbn [snd jobs_db background_tasks].
  split; [|reflexivity]. unfold status_of. cbn [jobs_db].
  rewrite lookup_insert_eq. reflexivity.
Qed.

(** The monitor's wake-up writes IN_PROGRESS whatever the status was. *)
Lemma wake_ignores_status (db : gmap string Job) (job_id : string) (job : Job)
    (now1 now2 : nat) :
  db !! job_id = Some job ->
  exists db',
    poll_payment_status_wake job_id now1 now2 db = Some db'
    /\ status <$> db' !! job_id = Some IN_PROGRESS.
Proof.
  intros H. unfold poll_payment_status_wake. rewrite H.
  eexists. split; [reflexivity|]. rewrite lookup_insert_eq. reflexivity.
Qed.

(** C9: a request whose [agent_type] is none of market, strategy and risk
    is answered with 400, and a request for an agent that is not
    initialised with 503; in both cases the state after the request is the
    state before it: [jobs_db] has the same records and size, and no
    monitor was scheduled. *)
Theorem C9_start_job_rejects_before_persisting
    (app : AppState) (req : StartJobRequest) (job_id payment_id : string)
    (now : nat) (st : State) :
  (req_agent_type req ∉ ["market"; "strategy"; "risk"]%string ->
     (exists detail,
        (start_job app req job_id payment_id now st).1 = HTTPException 400 detail)
     /\ (start_job app req job_id payment_id now st).2 = st
     /\ size (jobs_db (start_job app req job_id payment_id now st).2) = size (jobs_db st))
  /\ (forall config,
        agent_config app !! req_agent_type req = Some config ->
        cfg_agent config = None ->
        (exists detail,
           (start_job app req job_id payment_id now st).1 = HTTPException 503 detail)
        /\ (start_job app req job_id payment_id now st).2 = st
        /\ size (jobs_db (start_job app req job_id payment_id now st).2)
           = size (jobs_db st)).
Proof.
  split.
  - intros Ht. unfold start_job. rewrite (agent_config_unknown app _ Ht).
    cbn [fst snd]. eauto.
  - intros config Hc Ha. unfold start_job. rewrite Hc, Ha. cbn [fst snd]. eauto.
Qed.

Lemma C9_start_job_witness :
  (exists detail,
     (start_job Examples.app_all Examples.bogus_request "job-2" "pay-2" 20
        Examples.one_job).1 = HTTPException 400 detail)
  /\ (start_job Examples.app_all Examples.bogus_request "job-2" "pay-2" 20
        Examples.one_job).2 = Examples.one_job
  /\ (exists detail,
        (start_job Examples.app_none Examples.risk_request "job-2" "pay-2" 20
           Examples.one_job).1 = HTTPException 503 detail)
  /\ (start_job Examples.app_none Examples.risk_request "job-2" "pay-2" 20
        Examples.one_job).2 = Examples.one_job.
Proof.
  destruct (C9_start_job_rejects_before_persisting Examples.app_all
              Examples.bogus_request "job-2" "pay-2" 20 Examples.one_job)
    as [H400 _].
  destruct (C9_start_job_rejects_before_persisting Examples.app_none
              Examples.risk_request "job-2" "pay-2" 20 Examples.one_job)
    as [_ H503].
  destruct H400 as (Hd & Hst & _).
  { apply (bool_decide_unpack _). vm_compute. exact I. }
  destruct (H503 (MkAgentConfig None (2 # 100) "Risk Guardian Agent" "addr_test1risk_demo"))
    as (Hd' & Hst' & _); [reflexivity | reflexivity |].
  auto.
Defined.

(** C3, as stated: the second cancel request would fail with 400 and leave
    the record as it was.  It succeeds and writes [updated_at] again. *)
Lemma C3_second_cancel_succeeds :
  status_of Examples.one_job "job-1" = Some AWAITING_PAYMENT
  /\ status_of (cancel_job "job-1" 11 Examples.one_job).2 "job-1" = Some CANCELLED
  /\ (cancel_job "job-1" 12 (cancel_job "job-1" 11 Examples.one_job).2).1
     = Response (MkCancelResponse "job-1" "cancelled" "Job has been cancelled")
  /\ updated_at <$> jobs_db (cancel_job "job-1" 11 Examples.one_job).2 !! "job-1"
     = Some 11%nat
  /\ updated_at <$>
       jobs_db (cancel_job "job-1" 12 (cancel_job "job-1" 11 Examples.one_job).2).2
         !! "job-1"
     = Some 12%nat.
Proof. repeat split; vm_compute; reflexivity. Qed.

(** C3, amended: cancelling a job in AWAITING_PAYMENT succeeds and sets its
    status to CANCELLED; a cancel request that follows succeeds again,
    leaves the status CANCELLED and changes [updated_at] only.  A cancel
    request fails with 400 exactly when the status is COMPLETED or FAILED,
    and then the state is unchanged. *)
Theorem C3_cancel_is_repeatable
    (st : State) (job_id : string) (job : Job) (now1 now2 : nat) :
  jobs_db st !! job_id = Some job ->
  (status job = AWAITING_PAYMENT ->
     let first := cancel_job job_id now1 st in
     let second := cancel_job job_id now2 first.2 in
     first.1 = Response (MkCancelResponse job_id "cancelled" "Job has been cancelled")
     /\ jobs_db first.2 !! job_id = Some (set_updated_at now1 (set_status CANCELLED job))
     /\ second.1 = Response (MkCancelResponse job_id "cancelled" "Job has been cancelled")
     /\ jobs_db second.2 !! job_id = Some (set_updated_at now2 (set_status CANCELLED job)))
  /\ ((exists detail, (cancel_job job_id now1 st).1 = HTTPException 400 detail)
      <-> status job = COMPLETED \/ status job = FAILED)
  /\ (status job = COMPLETED \/ status job = FAILED -> (cancel_job job_id now1 st).2 = st).
Proof.
  intros Hjob. split; [|split].
  - intros Hs. cbn zeta.
    assert (H1 : cancel_job job_id now1 st
                 = (Response (MkCancelResponse job_id "cancelled" "Job has been cancelled"),
                    MkState (<[ job_id := set_updated_at now1 (set_status CANCELLED job) ]>
                               (jobs_db st))
                            (background_tasks st))).
    { unfold cancel_job. rewrite Hjob, Hs. reflexivity. }
    rewrite H1. cbn [fst snd jobs_db].
    split; [reflexivity|]. split; [apply lookup_insert_eq|].
    unfold cancel_job. cbn [jobs_db]. rewrite lookup_insert_eq.
    cbn [fst snd jobs_db]. split; [reflexivity|]. apply lookup_insert_eq.
  - unfold cancel_job. rewrite Hjob.
    destruct (status job) eqn:Hs; cbn [fst]; split;
      try (intros [detail Hd]; discriminate Hd);
      try (intros [Hc | Hf]; discriminate);
      eauto.
  - intros Hs. unfold cancel_job. rewrite Hjob.
    destruct Hs as [-> | ->]; reflexivity.
Qed.

Lemma C3_cancel_witness :
  (cancel_job "job-1" 12 (cancel_job "job-1" 11 Examples.one_job).2).1
  = Response (MkCancelResponse "job-1" "cancelled" "Job has been cancelled")
  /\ status <$>
       jobs_db (cancel_job "job-1" 12 (cancel_job "job-1" 11 Examples.one_job).2).2
         !! "job-1"
     = Some CANCELLED.
Proof.
  destruct (C3_cancel_is_repeatable Examples.one_job "job-1"
              (MkJob "job-1" "risk" AWAITING_PAYMENT "pay-1" "awaiting" ∅ None
                 10 10 None None) 11 12) as [Hrepeat _]; [reflexivity|].
  destruct Hrepeat as (_ & _ & Hsecond & Hrecord); [reflexivity|].
  split; [exact Hsecond|]. rewrite Hrecord. reflexivity.
Defined.

(** C1 at the failing input: a job is started, cancelled while its monitor
    sleeps, then the monitor wakes.  After the cancel request the status is
    CANCELLED; the wake-up overwrites it with IN_PROGRESS and the agent's
    answer with COMPLETED. *)
Theorem C1_cancelled_job_is_run_to_completion :
  status_of (run initial (take 2 Examples.cancel_then_wake)) "job-1" = Some CANCELLED
  /\ status_of (run initial (take 3 Examples.cancel_then_wake)) "job-1" = Some IN_PROGRESS
  /\ status_of (run initial Examples.cancel_then_wake) "job-1" = Some COMPLETED.
Proof. repeat split; vm_compute; reflexivity. Qed.

(** C2, as stated: a job whose payment is never seen settled would end in
    FAILED with a timeout error.  With a payment service that never locks
    the funds (the bounded poll gives up after 30 queries), the monitor
    still confirms the payment and the job ends in COMPLETED without an
    error. *)
Lemma C2_unsettled_job_completes :
  PaymentService.poll_for_funds_locked Examples.never_locked 30 2 = (false, 30%nat, 58%nat)
  /\ status <$>
       poll_payment_status "job-1" "pay-1" Examples.answering_agent ∅ 12 12 13
         (jobs_db Examples.one_job) !! "job-1"
     = Some COMPLETED
  /\ error <$>
       poll_payment_status "job-1" "pay-1" Examples.answering_agent ∅ 12 12 13
         (jobs_db Examples.one_job) !! "job-1"
     = Some None.
Proof. repeat split; vm_compute; reflexivity. Qed.

(** C2, amended: the bounded settlement poll [poll_for_funds_locked], when
    no query within its budget reports the funds locked, returns [False]
    after [max_attempts] queries and [max_attempts - 1] waits.  The job
    monitor does not call it: after its single wait it marks the payment
    confirmed, and the job ends in COMPLETED when the agent returns and in
    FAILED, with the text of the agent's exception as error, when the agent
    raises. *)
Theorem C2_monitor_confirms_without_polling :
  (forall check max_attempts interval,
      (forall k, (1 <= k <= max_attempts)%nat -> check k = false) ->
      PaymentService.poll_for_funds_locked check max_attempts interval
      = (false, max_attempts, ((max_attempts - 1) * interval)%nat))
  /\ (forall job_id payment_id agent input now1 now2 now3
             (db : gmap string Job) job,
        db !! job_id = Some job ->
        exists job',
          poll_payment_status job_id payment_id agent input now1 now2 now3 db !! job_id
          = Some job'
          /\ payment_status job' = "confirmed"%string
          /\ match execute agent input with
             | Ok res =>
                 status job' = COMPLETED /\ result job' = Some res
                 /\ error job' = error job
             | Raise e =>
                 status job' = FAILED /\ error job' = Some (exn_str e)
                 /\ result job' = result job
             end).
Proof.
  split.
  - intros check max_attempts interval Hcheck.
    unfold PaymentService.poll_for_funds_locked.
    rewrite (poll_loop_never_locked check max_attempts interval Hcheck) by lia.
    reflexivity.
  - intros job_id payment_id agent input now1 now2 now3 db job Hjob.
    unfold poll_payment_status, poll_payment_status_wake. rewrite Hjob.
    unfold poll_payment_status_finish. rewrite lookup_insert_eq.
    destruct (execute agent input) as [res|e];
      rewrite lookup_insert_eq; eexists; (split; [reflexivity|]); cbn; auto.
Qed.

Lemma C2_monitor_witness :
  PaymentService.poll_for_funds_locked Examples.never_locked 30 2
  = (false, 30%nat, 58%nat)
  /\ exists job',
       poll_payment_status "job-1" "pay-1" Examples.failing_agent ∅ 12 12 13
         (jobs_db Examples.one_job) !! "job-1" = Some job'
       /\ status job' = FAILED
       /\ error job' = Some "LLM unavailable"%string.
Proof.
  destruct C2_monitor_confirms_without_polling as [Hpoll Hmonitor].
  split.
  - apply (Hpoll Examples.never_locked 30%nat 2%nat). reflexivity.
  - destruct (Hmonitor "job-1"%string "pay-1"%string Examples.failing_agent ∅
                12%nat 12%nat 13%nat (jobs_db Examples.one_job)
                (MkJob "job-1" "risk" AWAITING_PAYMENT "pay-1" "awaiting" ∅ None
                   10 10 None None))
      as (job' & Hjob' & _ & Hout); [reflexivity|].
    exists job'. split; [exact Hjob'|]. cbn in Hout. destruct Hout as (Hs & He & _).
    split; assumption.
Defined.

(** ** Further properties: rounding *)

Section Rounding.

Lemma round_half_even_cases (x : Q) :
  round_half_even x = Qfloor x
  \/ (round_half_even x = (Qfloor x + 1)%Z /\ 1 # 2 <= x - inject_Z (Qfloor x)).
Proof.
  unfold round_half_even.
  destruct (Qcompare (x - inject_Z (Qfloor x)) (1 # 2)) eqn:E.
  - apply Qeq_alt in E. destruct (Z.even (Qfloor x)); [left; reflexivity|].
    right. split; [reflexivity|]. rewrite E. lra.
  - left. reflexivity.
  - apply Qgt_alt in E. right. split; [reflexivity|]. lra.
Qed.

Lemma round_half_even_ge (z : Z) (x : Q) :
  inject_Z z <= x -> (z <= round_half_even x)%Z.
Proof.
  intros H. assert (Hz : (z <= Qfloor x)%Z).
  { rewrite <- (Qfloor_Z z). apply Qfloor_resp_le, H. }
  destruct (round_half_even_cases x) as [-> | [-> _]]; lia.
Qed.

Lemma round_half_even_le (z : Z) (x : Q) :
  x <= inject_Z z -> (round_half_even x <= z)%Z.
Proof.
  intros H. pose proof (Qfloor_le x) as Hfl.
  destruct (round_half_even_cases x) as [-> | [-> Hhalf]].
  - rewrite Zle_Qle. lra.
  - assert (Hlt : inject_Z (Qfloor x) < inject_Z z) by lra.
    rewrite <- Zlt_Qlt in Hlt. lia.
Qed.

(** Rounding to one decimal does not cross a bound that has one decimal. *)
Lemma round1_bounds (a b : Z) (x : Q) :
  inject_Z a / 10 <= x <= inject_Z b / 10 ->
  inject_Z a / 10 <= round1 x <= inject_Z b / 10.
Proof.
  unfold round1, Qdiv. change (/ 10) with (1 # 10). intros [Ha Hb].
  assert (Ha' : (a <= round_half_even (x * 10))%Z) by (apply round_half_even_ge; lra).
  assert (Hb' : (round_half_even (x * 10) <= b)%Z) by (apply round_half_even_le; lra).
  rewrite Zle_Qle in Ha', Hb'. lra.
Qed.

(** A number with one decimal is its own rounding. *)
Lemma round1_exact (z : Z) (x : Q) : x == inject_Z z / 10 -> round1 x == x.
Proof.
  intros H.
  destruct (round1_bounds z z x) as [Hlo Hhi]; [rewrite H; split; apply Qle_refl|].
  apply Qle_antisym.
  - apply Qle_trans with (inject_Z z / 10); [exact Hhi | rewrite H; apply Qle_refl].
  - apply Qle_trans with (inject_Z z / 10); [rewrite H; apply Qle_refl | exact Hlo].
Qed.

End Rounding.

(** ** Further properties: the bounded settlement poll *)

Section Poll.

#[local] Open Scope nat_scope.

(** The loop stops at the first query that reports the funds locked. *)
Lemma poll_loop_first_locked (check : nat -> bool) (max_attempts interval k : nat) :
  1 <= k <= max_attempts ->
  check k = true ->
  (forall j, 1 <= j < k -> check j = false) ->
  forall remaining queries slept,
    remaining <= max_attempts ->
    max_attempts - remaining < k ->
    PaymentService.poll_loop check max_attempts interval remaining queries slept
    = (true, queries + (k - (max_attempts - remaining)),
       slept + (k - (max_attempts - remaining) - 1) * interval).
Proof.
  intros Hk Htrue Hfirst.
  induction remaining as [|r IH]; intros queries slept Hle Hlt; [lia|].
  cbn [PaymentService.poll_loop].
  destruct (decide (max_attempts - r = k)) as [Heq | Hne].
  - rewrite Heq, Htrue. triple_eq; [reflexivity | lia | nia].
  - rewrite Hfirst by lia. rewrite IH by lia.
    assert (Hcmp : (max_attempts - r <? max_attempts) = true) by (apply Nat.ltb_lt; lia).
    rewrite Hcmp. triple_eq; [reflexivity | lia | nia].
Qed.

(** Either no query of the budget reports the funds locked, or there is a
    first one that does. *)
Lemma first_locked_or_never (check : nat -> bool) (n : nat) :
  (forall j, 1 <= j <= n -> check j = false)
  \/ exists k, 1 <= k <= n /\ check k = true /\ forall j, 1 <= j < k -> check j = false.
Proof.
  induction n as [|n IH].
  - left. intros j Hj. lia.
  - destruct IH as [Hnever | (k & Hk & Htrue & Hfirst)].
    + destruct (check (S n)) eqn:E.
      * right. exists (S n). split; [lia|]. split; [exact E|].
        intros j Hj. apply Hnever. lia.
      * left. intros j Hj. destruct (decide (j = S n)) as [-> | Hne]; [exact E|].
        apply Hnever. lia.
    + right. exists k. split; [lia|]. split; assumption.
Qed.

End Poll.

(** X1: [poll_for_funds_locked] returns [True] exactly when some query
    within its budget of [max_attempts] reports the funds locked, and then
    it stops at the first such query; it never makes more than
    [max_attempts] queries, and it waits [interval_seconds] between two
    consecutive queries only, never after the last one. *)
Theorem poll_for_funds_locked_bounded
    (check : nat -> bool) (max_attempts interval : nat) :
  exists locked queries slept,
    PaymentService.poll_for_funds_locked check max_attempts interval
    = (locked, queries, slept)
    /\ (queries <= max_attempts)%nat
    /\ slept = ((queries - 1) * interval)%nat
    /\ (locked = true <->
        exists k, (1 <= k <= max_attempts)%nat /\ check k = true)
    /\ (locked = true ->
        check queries = true
        /\ forall j, (1 <= j < queries)%nat -> check j = false)
    /\ (locked = false -> queries = max_attempts).
Proof.
  unfold PaymentService.poll_for_funds_locked.
  destruct (first_locked_or_never check max_attempts)
    as [Hnever | (k & Hk & Htrue & Hfirst)].
  - rewrite (poll_loop_never_locked check max_attempts interval Hnever) by lia.
    exists false, max_attempts, ((max_attempts - 1) * interval)%nat.
    split; [reflexivity|]. split; [lia|]. split; [reflexivity|].
    split; [|split; [discriminate | reflexivity]].
    split; [discriminate|]. intros (k & Hk & Htrue).
    rewrite (Hnever k Hk) in Htrue. discriminate.
  - rewrite (poll_loop_first_locked check max_attempts interval k Hk Htrue Hfirst)
      by lia.
    exists true, k, ((k - 1) * interval)%nat.
    split; [triple_eq; [reflexivity | lia | f_equal; lia]|].
    split; [lia|]. split; [reflexivity|].
    split; [|split; [intros _; split; assumption | discriminate]].
    split; [intros _; exists k; split; assumption | reflexivity].
Qed.

Lemma poll_for_funds_locked_witness :
  exists queries slept,
    PaymentService.poll_for_funds_locked (fun k => (3 <=? k)%nat) 30 2
    = (true, queries, slept)
    /\ queries = 3%nat /\ slept = 4%nat.
Proof.
  destruct (poll_for_funds_locked_bounded (fun k => (3 <=? k)%nat) 30 2)
    as (locked & queries & slept & Hrun & _ & Hslept & Hiff & _).
  assert (Hlocked : locked = true).
  { apply Hiff. exists 3%nat. split; [lia | reflexivity]. }
  subst locked. exists queries, slept. split; [exact Hrun|].
  vm_compute in Hrun. injection Hrun as <- <-. split; reflexivity.
Defined.

(** ** Further properties: the configured poll budget *)

(** X2: with a positive poll interval, [validate_max_attempts] returns a
    number of attempts whose total duration is at most the timeout plus the
    10 seconds of slack; it never raises the value it is given, and keeps
    it when it already fits. *)
Theorem validate_max_attempts_fits_timeout (v : Z) (values : gmap string Z) :
  let timeout := default 60%Z (values !! "timeout_seconds"%string) in
  let interval := default 2%Z (values !! "poll_interval_seconds"%string) in
  (0 < interval)%Z ->
  exists r,
    Settings.validate_max_attempts v values = Some r
    /\ (r * interval <= timeout + 10)%Z
    /\ (r <= v)%Z
    /\ ((v * interval <= timeout + 10)%Z -> r = v)
    /\ ((timeout + 10 < v * interval)%Z -> r = (timeout / interval)%Z).
Proof.
  intros timeout interval Hpos. unfold Settings.validate_max_attempts.
  fold timeout. fold interval.
  destruct (timeout + 10 <? v * interval)%Z eqn:E.
  - apply Z.ltb_lt in E.
    assert (Hi : (interval =? 0)%Z = false) by (apply Z.eqb_neq; lia). rewrite Hi.
    pose proof (Z.mul_div_le timeout interval Hpos) as Hdiv.
    exists (timeout / interval)%Z. split; [reflexivity|].
    split; [lia|]. split; [nia|]. split; [lia | reflexivity].
  - apply Z.ltb_ge in E. exists v. split; [reflexivity|].
    split; [lia|]. split; [lia|]. split; [reflexivity | lia].
Qed.

Lemma validate_max_attempts_witness :
  Settings.validate_max_attempts 100
    (<[ "timeout_seconds"%string := 60%Z ]> (<[ "poll_interval_seconds"%string := 2%Z ]> ∅))
  = Some 30%Z.
Proof.
  destruct (validate_max_attempts_fits_timeout 100
              (<[ "timeout_seconds"%string := 60%Z ]>
                 (<[ "poll_interval_seconds"%string := 2%Z ]> ∅)))
    as (r & Hr & _ & _ & _ & Hcut); [vm_compute; reflexivity|].
  rewrite Hr, Hcut; [reflexivity | vm_compute; reflexivity].
Defined.

(** ** Further properties: the endpoints *)

Section Endpoints.


Lemma schemas_unknown (t : string) :
  t ∉ ["market"; "strategy"; "risk"]%string -> schemas !! t = None.
Proof.
  intros Ht. unfold schemas.
  rewrite !lookup_insert_ne; [apply lookup_empty | ..];
    intros <-; apply Ht; set_solver.
Qed.

Lemma schemas_known (t : string) :
  t ∈ ["market"; "strategy"; "risk"]%string ->
  exists schema, schemas !! t = Some schema /\ schema_agent_type schema = t.
Proof.
  intros Ht. repeat (apply elem_of_cons in Ht as [-> | Ht]).
  - eexists. split; [apply lookup_insert_eq | reflexivity].
  - eexists. unfold schemas. rewrite lookup_insert_ne by discriminate.
    split; [apply lookup_insert_eq | reflexivity].
  - eexists. unfold schemas. rewrite !lookup_insert_ne by discriminate.
    split; [apply lookup_insert_eq | reflexivity].
  - inversion Ht.
Qed.

End Endpoints.



(** X4: for each of the three agent types, [GET /availability] reports
    the agent available exactly when [POST /start_job] accepts a request
    for it, and the price it advertises is the amount of the payment
    request that [start_job] returns. *)
Theorem availability_matches_start_job
    (app : AppState) (now : nat) (req : StartJobRequest) (job_id payment_id : string)
    (created_at : nat) (st : State) :
  req_agent_type req ∈ ["market"; "strategy"; "risk"]%string ->
  exists response info,
    get_availability app now = Response response
    /\ agents response !! req_agent_type req = Some info
    /\ (agent_available info = true <->
        exists resp, (start_job app req job_id payment_id created_at st).1 = Response resp)
    /\ (agent_available info = false <->
        exists detail,
          (start_job app req job_id payment_id created_at st).1 = HTTPException 503 detail)
    /\ (forall resp,
          (start_job app req job_id payment_id created_at st).1 = Response resp ->
          price_lovelace info = Some (amount_lovelace (payment_request resp)))
    /\ (agent_available info = false -> price_lovelace info = None).
Proof.
  intros Ht. eexists. unfold get_availability, start_job, agent_config.
  repeat (apply elem_of_cons in Ht as [-> | Ht]); [| | |inversion Ht].
  - eexists. split; [reflexivity|]. cbn [agents].
    rewrite !lookup_insert_eq. split; [reflexivity|].
    destruct (market_agent app); cbn; repeat split;
      try discriminate; try (intros [? ?]; discriminate); eauto.
    intros resp [= <-]. reflexivity.
  - eexists. split; [reflexivity|]. cbn [agents].
    rewrite !(lookup_insert_ne _ "market"%string "strategy"%string) by discriminate.
    rewrite !lookup_insert_eq. split; [reflexivity|].
    destruct (strategy_agent app); cbn; repeat split;
      try discriminate; try (intros [? ?]; discriminate); eauto.
    intros resp [= <-]. reflexivity.
  - eexists. split; [reflexivity|]. cbn [agents].
    rewrite !(lookup_insert_ne _ "market"%string "risk"%string) by discriminate.
    rewrite !(lookup_insert_ne _ "strategy"%string "risk"%string) by discriminate.
    rewrite !lookup_insert_eq. split; [reflexivity|].
    destruct (risk_agent app); cbn; repeat split;
      try discriminate; try (intros [? ?]; discriminate); eauto.
    intros resp [= <-]. reflexivity.
Qed.

Lemma availability_matches_witness :
  exists response info,
    get_availability Examples.app_all 5 = Response response
    /\ agents response !! "risk"%string = Some info
    /\ price_lovelace info = Some 20000%Z.
Proof.
  destruct (availability_matches_start_job Examples.app_all 5 Examples.risk_request
              "job-1" "pay-1" 10 initial)
    as (response & info & Hresp & Hinfo & _ & _ & Hprice & _).
  { apply (bool_decide_unpack _). vm_compute. exact I. }
  exists response, info. split; [exact Hresp|]. split; [exact Hinfo|].
  rewrite (Hprice _ eq_refl). reflexivity.
Defined.

(** X5: [GET /input_schema] and [POST /start_job] accept the same agent
    types: the schema request is answered with 400 exactly when the job
    request is, and otherwise with the schema of the requested type. *)
Theorem input_schema_accepts_what_start_job_accepts
    (app : AppState) (req : StartJobRequest) (job_id payment_id : string)
    (now : nat) (st : State) :
  ((exists detail, get_input_schema (req_agent_type req) = HTTPException 400 detail)
   <-> (exists detail,
          (start_job app req job_id payment_id now st).1 = HTTPException 400 detail))
  /\ ((exists detail, get_input_schema (req_agent_type req) = HTTPException 400 detail)
      <-> req_agent_type req ∉ ["market"; "strategy"; "risk"]%string)
  /\ (forall schema,
        get_input_schema (req_agent_type req) = Response schema ->
        schema_agent_type schema = req_agent_type req /\ fields schema <> []).
Proof.
  unfold get_input_schema, start_job.
  destruct (decide (req_agent_type req ∈ ["market"; "strategy"; "risk"]%string))
    as [Hin | Hout].
  - destruct (schemas_known _ Hin) as (schema & Hs & Hty). rewrite Hs.
    assert (Hcfg : exists config, agent_config app !! req_agent_type req = Some config).
    { destruct (agent_config app !! req_agent_type req) eqn:E; [eauto|].
      exfalso. revert E. unfold agent_config.
      repeat (apply elem_of_cons in Hin as [-> | Hin]); [| | |inversion Hin].
      - rewrite lookup_insert_eq. discriminate.
      - rewrite lookup_insert_ne by discriminate. rewrite lookup_insert_eq. discriminate.
      - rewrite !lookup_insert_ne by discriminate. rewrite lookup_insert_eq. discriminate. }
    destruct Hcfg as (config & Hc). rewrite Hc.
    split; [|split].
    + split; [intros [d Hd]; discriminate|].
      destruct (cfg_agent config); intros [d Hd]; discriminate.
    + split; [intros [d Hd]; discriminate | contradiction].
    + intros schema' [= <-]. split; [exact Hty|].
      revert Hs. unfold schemas.
      repeat (apply elem_of_cons in Hin as [-> | Hin]); [| | |inversion Hin].
      * rewrite lookup_insert_eq. intros [= <-]. discriminate.
      * rewrite lookup_insert_ne by discriminate. rewrite lookup_insert_eq.
        intros [= <-]. discriminate.
      * rewrite !lookup_insert_ne by discriminate. rewrite lookup_insert_eq.
        intros [= <-]. discriminate.
  - rewrite (schemas_unknown _ Hout), (agent_config_unknown app _ Hout). cbn [fst].
    split; [|split].
    + split; eauto.
    + split; eauto.
    + discriminate.
Qed.

Lemma input_schema_witness :
  exists detail, get_input_schema "bogus" = HTTPException 400 detail.
Proof.
  destruct (input_schema_accepts_what_start_job_accepts Examples.app_all
              Examples.bogus_request "job-2" "pay-2" 20 Examples.one_job)
    as (_ & Hiff & _).
  apply Hiff. apply (bool_decide_unpack _). vm_compute. exact I.
Defined.



(** ** Further properties: what every reachable state satisfies *)

Section Reachable.

Import JobSpec.

Lemma store_ok_insert (db : gmap string Job) (tasks tasks' : list Task)
    (id : string) (job : Job) :
  store_ok (MkState db tasks) -> well_kept id job ->
  store_ok (MkState (<[ id := job ]> db) tasks').
Proof.
  intros Hst Hjob id' job'. cbn [jobs_db].
  destruct (decide (id = id')) as [<- | Hne].
  - rewrite lookup_insert_eq. intros [= <-]. exact Hjob.
  - rewrite lookup_insert_ne by exact Hne. apply Hst.
Qed.

Lemma store_ok_tasks (db : gmap string Job) (tasks tasks' : list Task) :
  store_ok (MkState db tasks) -> store_ok (MkState db tasks').
Proof. intros H id job. apply H. Qed.

Lemma state_eta (st : State) : st = MkState (jobs_db st) (background_tasks st).
Proof. destruct st. reflexivity. Qed.

Lemma well_kept_cancelled (id : string) (job : Job) (now : nat) :
  well_kept id job -> well_kept id (set_updated_at now (set_status CANCELLED job)).
Proof.
  intros (Hid & Hty & Hpay & _). unfold well_kept. cbn.
  repeat split; try assumption; discriminate.
Qed.

Lemma well_kept_in_progress (id : string) (job : Job) (now1 now2 : nat) :
  well_kept id job ->
  well_kept id
    (set_updated_at now2
       (set_status IN_PROGRESS
          (set_updated_at now1
             (set_payment_status "confirmed" (set_status PAYMENT_RECEIVED job))))).
Proof.
  intros (Hid & Hty & _). unfold well_kept. cbn.
  repeat split; try assumption; try discriminate. do 2 constructor.
Qed.

Lemma well_kept_finished (id : string) (job : Job) (out : outcome dict) (now : nat) :
  well_kept id job ->
  well_kept id
    match out with
    | Ok res => set_updated_at now (set_result (Some res) (set_status COMPLETED job))
    | Raise e => set_updated_at now (set_error (Some (exn_str e)) (set_status FAILED job))
    end.
Proof.
  intros (Hid & Hty & Hpay & _). unfold well_kept.
  destruct out; cbn; repeat split; try assumption; try discriminate; eauto.
Qed.

Lemma well_kept_input (id : string) (job : Job) (d : dict) (now : nat) :
  status job <> AWAITING_PAYMENT ->
  well_kept id job -> well_kept id (set_updated_at now (set_input_data d job)).
Proof.
  intros Hs (Hid & Hty & Hpay & Hpr & Haw & Hip & Hc & Hf).
  unfold well_kept. cbn. repeat split; try assumption; contradiction.
Qed.

Lemma step_store_ok (st : State) (ev : Event) : store_ok st -> store_ok (step st ev).
Proof.
  intros Hst. rewrite (state_eta st) in Hst.
  destruct ev as [app req id pid now | id now | id add now | i now1 now2 | i now];
    cbn [step].
  - unfold start_job.
    destruct (agent_config app !! req_agent_type req) as [config|] eqn:Hc;
      [|rewrite (state_eta st); exact Hst].
    destruct (cfg_agent config); [|rewrite (state_eta st); exact Hst].
    cbn [snd]. apply (store_ok_insert _ _ _ _ _ Hst).
    unfold well_kept, pristine. cbn.
    repeat split; try discriminate; try reflexivity.
    + apply (agent_config_known app _ config Hc).
    + constructor.
  - unfold cancel_job. destruct (jobs_db st !! id) as [job|] eqn:Hjob;
      [|rewrite (state_eta st); exact Hst].
    destruct (bool_decide _); [rewrite (state_eta st); exact Hst|].
    cbn [snd]. apply (store_ok_insert _ _ _ _ _ Hst).
    apply well_kept_cancelled, (Hst id job Hjob).
  - unfold provide_additional_input. destruct (jobs_db st !! id) as [job|] eqn:Hjob;
      [|rewrite (state_eta st); exact Hst].
    destruct (bool_decide _) eqn:Hb; [|rewrite (state_eta st); exact Hst].
    cbn [snd]. apply (store_ok_insert _ _ _ _ _ Hst).
    apply well_kept_input; [|apply (Hst id job Hjob)].
    apply bool_decide_eq_true in Hb. intros Haw. rewrite Haw in Hb.
    repeat (apply elem_of_cons in Hb as [Hb | Hb]); try discriminate. inversion Hb.
  - destruct (background_tasks st !! i) as [t|]; [|rewrite (state_eta st); exact Hst].
    destruct (task_phase t); try (rewrite (state_eta st); exact Hst).
    unfold poll_payment_status_wake.
    destruct (jobs_db st !! task_job_id t) as [job|] eqn:Hjob.
    + apply (store_ok_insert _ _ _ _ _ Hst).
      apply well_kept_in_progress, (Hst _ job Hjob).
    + apply (store_ok_tasks _ _ _ Hst).
  - destruct (background_tasks st !! i) as [t|]; [|rewrite (state_eta st); exact Hst].
    destruct (task_phase t); try (rewrite (state_eta st); exact Hst).
    unfold poll_payment_status_finish.
    destruct (jobs_db st !! task_job_id t) as [job|] eqn:Hjob.
    + pose proof (well_kept_finished _ job (execute (task_agent t) (task_input_data t))
                    now (Hst _ job Hjob)) as Hfin.
      destruct (execute (task_agent t) (task_input_data t));
        apply (store_ok_insert _ _ _ _ _ Hst); exact Hfin.
    + apply (store_ok_tasks _ _ _ Hst).
Qed.

Lemma run_store_ok (evs : list Event) :
  forall st, store_ok st -> store_ok (run st evs).
Proof.
  induction evs as [|ev evs IH]; intros st Hst; [exact Hst|].
  cbn [run fold_left]. apply IH, step_store_ok, Hst.
Qed.

Lemma initial_store_ok : store_ok initial.
Proof. intros id job. cbn. rewrite lookup_empty. discriminate. Qed.

End Reachable.

(** X7: in every state the service can reach, each record of [jobs_db]
    is stored under its own [job_id], its [agent_type] is one of market,
    strategy and risk, and its [payment_status] is "awaiting" or
    "confirmed". *)
Theorem reachable_jobs_are_well_formed (evs : list Event) (id : string) (job : Job) :
  jobs_db (run initial evs) !! id = Some job ->
  job_id job = id
  /\ agent_type job ∈ ["market"; "strategy"; "risk"]%string
  /\ payment_status job ∈ ["awaiting"; "confirmed"]%string.
Proof.
  intros H. destruct (run_store_ok evs initial initial_store_ok id job H)
    as (Hid & Hty & Hpay & _). auto.
Qed.

Lemma reachable_jobs_witness :
  exists job,
    jobs_db (run initial Examples.cancel_then_wake) !! "job-1" = Some job
    /\ job_id job = "job-1"%string
    /\ agent_type job ∈ ["market"; "strategy"; "risk"]%string.
Proof.
  eexists. split; [vm_compute; reflexivity|].
  destruct (reachable_jobs_are_well_formed Examples.cancel_then_wake "job-1" _ eq_refl)
    as (Hid & Hty & _).
  split; assumption.
Defined.

(** X8: in every state the service can reach, no job has the status
    PAYMENT_RECEIVED (the monitor writes it and IN_PROGRESS in one
    uninterrupted stretch); a job in AWAITING_PAYMENT is as [start_job]
    created it; a job IN_PROGRESS has its payment confirmed; a COMPLETED job
    has a result and a FAILED job has an error. *)
Theorem reachable_status_invariants (evs : list Event) (id : string) (job : Job) :
  jobs_db (run initial evs) !! id = Some job ->
  status job <> PAYMENT_RECEIVED
  /\ (status job = AWAITING_PAYMENT ->
      payment_status job = "awaiting"%string /\ result job = None /\ error job = None
      /\ updated_at job = created_at job)
  /\ (status job = IN_PROGRESS -> payment_status job = "confirmed"%string)
  /\ (status job = COMPLETED -> is_Some (result job))
  /\ (status job = FAILED -> is_Some (error job)).
Proof.
  intros H. destruct (run_store_ok evs initial initial_store_ok id job H)
    as (_ & _ & _ & Hpr & Haw & Hip & Hc & Hf). auto.
Qed.

Lemma reachable_status_witness :
  exists job,
    jobs_db (run initial Examples.cancel_then_wake) !! "job-1" = Some job
    /\ status job <> PAYMENT_RECEIVED
    /\ is_Some (result job).
Proof.
  eexists. split; [vm_compute; reflexivity|].
  destruct (reachable_status_invariants Examples.cancel_then_wake "job-1" _ eq_refl)
    as (Hpr & _ & _ & Hc & _).
  split; [exact Hpr | apply Hc; reflexivity].
Defined.

Section Growth.

Import JobSpec.

(** No transition removes a job. *)
Lemma step_keeps_jobs (st : State) (ev : Event) (id : string) :
  is_Some (jobs_db st !! id) -> is_Some (jobs_db (step st ev) !! id).
Proof.
  intros Hin.
  assert (Hins : forall id' job', is_Some (<[ id' := job' ]> (jobs_db st) !! id)).
  { intros id' job'. rewrite lookup_insert_is_Some. destruct (decide (id' = id)); auto. }
  destruct ev as [app req id' pid now | id' now | id' add now | i now1 now2 | i now];
    cbn [step].
  - unfold start_job. destruct (agent_config app !! req_agent_type req) as [config|];
      [|exact Hin].
    destruct (cfg_agent config); [|exact Hin]. apply Hins.
  - unfold cancel_job. destruct (jobs_db st !! id'); [|exact Hin].
    destruct (bool_decide _); [exact Hin | apply Hins].
  - unfold provide_additional_input. destruct (jobs_db st !! id'); [|exact Hin].
    destruct (bool_decide _); [apply Hins | exact Hin].
  - destruct (background_tasks st !! i) as [t|]; [|exact Hin].
    destruct (task_phase t); try exact Hin.
    unfold poll_payment_status_wake.
    destruct (jobs_db st !! task_job_id t); [apply Hins | exact Hin].
  - destruct (background_tasks st !! i) as [t|]; [|exact Hin].
    destruct (task_phase t); try exact Hin.
    unfold poll_payment_status_finish. cbn [jobs_db].
    destruct (jobs_db st !! task_job_id t); [|exact Hin].
    destruct (execute _ _); apply Hins.
Qed.

Lemma run_keeps_jobs (evs : list Event) :
  forall st id, is_Some (jobs_db st !! id) -> is_Some (jobs_db (run st evs) !! id).
Proof.
  induction evs as [|ev evs IH]; intros st id Hin; [exact Hin|].
  cbn [run fold_left]. apply IH, step_keeps_jobs, Hin.
Qed.

Lemma tasks_ok_set_phase (st : State) (db : gmap string Job) (i : nat) (t : Task)
    (p : Phase) :
  tasks_ok st -> background_tasks st !! i = Some t ->
  (forall id, is_Some (jobs_db st !! id) -> is_Some (db !! id)) ->
  tasks_ok (MkState db (<[ i := set_phase p t ]> (background_tasks st))).
Proof.
  intros Hok Ht Hdb j t'. cbn [background_tasks jobs_db].
  destruct (decide (i = j)) as [<- | Hne].
  - rewrite list_lookup_insert_eq by (apply lookup_lt_Some in Ht; exact Ht).
    intros [= <-]. cbn. apply Hdb, (Hok i t Ht).
  - rewrite list_lookup_insert_ne by exact Hne. intros Ht'. apply Hdb, (Hok j t' Ht').
Qed.

Lemma step_tasks_ok (st : State) (ev : Event) : tasks_ok st -> tasks_ok (step st ev).
Proof.
  intros Hok.
  pose proof (step_keeps_jobs st ev) as Hkeep.
  destruct ev as [app req id pid now | id now | id add now | i now1 now2 | i now];
    cbn [step] in *.
  - unfold start_job in *.
    destruct (agent_config app !! req_agent_type req) as [config|]; [|exact Hok].
    destruct (cfg_agent config) as [agent|]; [|exact Hok].
    cbn [snd] in *. intros j t. cbn [background_tasks jobs_db] in *.
    intros Ht. apply lookup_app_Some in Ht as [Ht | [_ Ht]].
    + apply Hkeep, (Hok j t Ht).
    + apply list_lookup_singleton_Some in Ht as [_ <-]. cbn.
      rewrite lookup_insert_eq. eauto.
  - unfold cancel_job in *. destruct (jobs_db st !! id) as [job|]; [|exact Hok].
    destruct (bool_decide _); [exact Hok|].
    intros j t Ht. apply Hkeep, (Hok j t Ht).
  - unfold provide_additional_input in *.
    destruct (jobs_db st !! id) as [job|]; [|exact Hok].
    destruct (bool_decide _); [|exact Hok].
    intros j t Ht. apply Hkeep, (Hok j t Ht).
  - destruct (background_tasks st !! i) as [t|] eqn:Ht; [|exact Hok].
    destruct (task_phase t); try exact Hok.
    destruct (poll_payment_status_wake _ _ _ _);
      apply (tasks_ok_set_phase st _ i t _ Hok Ht); cbn [jobs_db] in Hkeep; auto.
  - destruct (background_tasks st !! i) as [t|] eqn:Ht; [|exact Hok].
    destruct (task_phase t); try exact Hok.
    apply (tasks_ok_set_phase st _ i t _ Hok Ht). exact Hkeep.
Qed.

Lemma run_tasks_ok (evs : list Event) :
  forall st, tasks_ok st -> tasks_ok (run st evs).
Proof.
  induction evs as [|ev evs IH]; intros st Hst; [exact Hst|].
  cbn [run fold_left]. apply IH, step_tasks_ok, Hst.
Qed.

Lemma initial_tasks_ok : tasks_ok initial.
Proof. intros i t. cbn. rewrite lookup_nil. discriminate. Qed.

End Growth.

(** X9: the store only grows: a job that is in [jobs_db] is still there
    after any further sequence of requests and monitor steps.  Hence every
    monitor that was scheduled finds its job on waking: the early return of
    [poll_payment_status] for a missing job is never taken. *)
Theorem jobs_are_never_removed (evs evs' : list Event) :
  (forall id,
     is_Some (jobs_db (run initial evs) !! id) ->
     is_Some (jobs_db (run (run initial evs) evs') !! id))
  /\ (forall i t now1 now2,
        background_tasks (run initial evs) !! i = Some t ->
        is_Some (poll_payment_status_wake (task_job_id t) now1 now2
                   (jobs_db (run initial evs)))).
Proof.
  split.
  - intros id. apply run_keeps_jobs.
  - intros i t now1 now2 Ht.
    destruct (run_tasks_ok evs initial initial_tasks_ok i t Ht) as [job Hjob].
    unfold poll_payment_status_wake. rewrite Hjob. eauto.
Qed.

Lemma jobs_are_never_removed_witness :
  is_Some (jobs_db (run (run initial (take 1 Examples.cancel_then_wake))
                        (drop 1 Examples.cancel_then_wake)) !! "job-1").
Proof.
  destruct (jobs_are_never_removed (take 1 Examples.cancel_then_wake)
              (drop 1 Examples.cancel_then_wake)) as [Hkeep _].
  apply Hkeep. vm_compute. eauto.
Defined.

(** ** Further properties: one monitor per job *)

Section Synced.

Import JobSpec.

Lemma synced_unique (st : State) (i j : nat) (t t' : Task) :
  synced st ->
  background_tasks st !! i = Some t -> background_tasks st !! j = Some t' ->
  task_job_id t = task_job_id t' -> i = j.
Proof.
  intros (Hnd & _) Hi Hj Hid.
  apply (NoDup_lookup _ i j (task_job_id t) Hnd); rewrite list_lookup_fmap.
  - rewrite Hi. reflexivity.
  - rewrite Hj, Hid. reflexivity.
Qed.

Lemma fmap_insert_phase (tasks : list Task) (i : nat) (t : Task) (p : Phase) :
  tasks !! i = Some t ->
  task_job_id <$> <[ i := set_phase p t ]> tasks = task_job_id <$> tasks.
Proof.
  intros Ht. rewrite list_fmap_insert. apply list_insert_id.
  rewrite list_lookup_fmap, Ht. reflexivity.
Qed.

(** The shape of every transition that writes: one job is replaced, and the
    monitors keep their job ids. *)
Lemma synced_update (st : State) (jid : string) (job job' : Job) (tasks' : list Task) :
  synced st ->
  jobs_db st !! jid = Some job ->
  task_job_id <$> tasks' = task_job_id <$> background_tasks st ->
  (forall i t', tasks' !! i = Some t' -> task_job_id t' = jid -> phase_matches t' job') ->
  (forall i t', tasks' !! i = Some t' -> task_job_id t' <> jid ->
                background_tasks st !! i = Some t') ->
  synced (MkState (<[ jid := job' ]> (jobs_db st)) tasks').
Proof.
  intros (Hnd & Htasks & Hjobs) Hjob Hids Hsame Hother.
  split; [|split]; cbn [jobs_db background_tasks].
  - rewrite Hids. exact Hnd.
  - intros i t' Ht'. destruct (decide (task_job_id t' = jid)) as [Heq | Hne].
    + exists job'. rewrite Heq, lookup_insert_eq. split; [reflexivity|].
      apply (Hsame i t' Ht' Heq).
    + rewrite lookup_insert_ne by congruence.
      apply (Htasks i t'), (Hother i t' Ht' Hne).
  - intros id job0 Hlook.
    assert (Hold : exists i t, background_tasks st !! i = Some t /\ task_job_id t = id).
    { destruct (decide (jid = id)) as [<- | Hne].
      - apply (Hjobs jid job Hjob).
      - rewrite lookup_insert_ne in Hlook by exact Hne. apply (Hjobs id job0 Hlook). }
    destruct Hold as (i & t & Ht & Hid).
    assert (Hi : (task_job_id <$> tasks') !! i = Some id).
    { rewrite Hids, list_lookup_fmap, Ht, <- Hid. reflexivity. }
    rewrite list_lookup_fmap in Hi.
    destruct (tasks' !! i) as [t'|] eqn:Ht'; [|discriminate].
    exists i, t'. split; [exact Ht'|]. injection Hi as Hi. exact Hi.
Qed.

Lemma synced_tasks_only (st : State) (i : nat) (t : Task) (p : Phase) :
  synced st -> background_tasks st !! i = Some t ->
  jobs_db st !! task_job_id t = None ->
  synced (MkState (jobs_db st) (<[ i := set_phase p t ]> (background_tasks st))).
Proof.
  intros (_ & Htasks & _) Ht Hnone.
  destruct (Htasks i t Ht) as (job & Hjob & _). congruence.
Qed.

Lemma step_synced (st : State) (ev : Event) :
  synced st -> fresh_event st ev -> synced (step st ev).
Proof.
  intros Hsync Hfresh. pose proof Hsync as (Hnd & Htasks & Hjobs).
  destruct ev as [app req id pid now | id now | id add now | i now1 now2 | i now];
    cbn [step].
  - cbn [fresh_event] in Hfresh. unfold start_job.
    destruct (agent_config app !! req_agent_type req) as [config|]; [|exact Hsync].
    destruct (cfg_agent config) as [agent|]; [|exact Hsync].
    cbn [snd]. split; [|split]; cbn [jobs_db background_tasks].
    + rewrite fmap_app. cbn [fmap list_fmap task_job_id].
      apply NoDup_app. split; [exact Hnd|]. split; [|apply NoDup_singleton].
      intros x Hx Hx'. apply list_elem_of_singleton in Hx'. subst x.
      apply list_elem_of_fmap in Hx as (t & Hid & Ht).
      apply list_elem_of_lookup in Ht as (j & Ht).
      destruct (Htasks j t Ht) as (job & Hjob & _). congruence.
    + intros j t Ht. apply lookup_app_Some in Ht as [Ht | [_ Ht]].
      * destruct (Htasks j t Ht) as (job & Hjob & Hphase).
        exists job. split; [|exact Hphase].
        rewrite lookup_insert_ne; [exact Hjob | congruence].
      * apply list_lookup_singleton_Some in Ht as [_ <-]. cbn [task_job_id].
        rewrite lookup_insert_eq. eexists. split; [reflexivity|].
        unfold phase_matches. cbn. auto.
    + intros id' job Hlook. destruct (decide (id = id')) as [<- | Hne].
      * exists (length (background_tasks st)). eexists.
        split; [apply list_lookup_middle; reflexivity | reflexivity].
      * rewrite lookup_insert_ne in Hlook by exact Hne.
        destruct (Hjobs id' job Hlook) as (j & t & Ht & Hid).
        exists j, t. split; [|exact Hid]. apply lookup_app_l_Some, Ht.
  - unfold cancel_job. destruct (jobs_db st !! id) as [job|] eqn:Hjob; [|exact Hsync].
    destruct (bool_decide _) eqn:Hb; [exact Hsync|]. cbn [snd].
    apply bool_decide_eq_false in Hb.
    apply (synced_update st id job _ _ Hsync Hjob eq_refl); [|auto].
    intros j t Ht Hid. destruct (Htasks j t Ht) as (job0 & Hjob0 & Hphase).
    rewrite Hid, Hjob in Hjob0. injection Hjob0 as <-.
    revert Hphase. unfold phase_matches. destruct (task_phase t); cbn.
    + intros (_ & Hr & He). auto.
    + intros (_ & Hr & He). auto.
    + intros [(Hs & _) | (Hs & _)]; exfalso; apply Hb; rewrite Hs; set_solver.
  - unfold provide_additional_input.
    destruct (jobs_db st !! id) as [job|] eqn:Hjob; [|exact Hsync].
    destruct (bool_decide _); [|exact Hsync]. cbn [snd].
    apply (synced_update st id job _ _ Hsync Hjob eq_refl); [|auto].
    intros j t Ht Hid. destruct (Htasks j t Ht) as (job0 & Hjob0 & Hphase).
    rewrite Hid, Hjob in Hjob0. injection Hjob0 as <-. exact Hphase.
  - destruct (background_tasks st !! i) as [t|] eqn:Ht; [|exact Hsync].
    destruct (task_phase t) eqn:Hp; try exact Hsync.
    destruct (Htasks i t Ht) as (job & Hjob & Hphase).
    unfold poll_payment_status_wake. rewrite Hjob.
    apply (synced_update st _ job _ _ Hsync Hjob (fmap_insert_phase _ i t _ Ht)).
    + intros j t' Ht' Hid.
      destruct (decide (i = j)) as [<- | Hne].
      * rewrite list_lookup_insert_eq in Ht' by (apply lookup_lt_Some in Ht; exact Ht).
        injection Ht' as <-. revert Hphase. unfold phase_matches. rewrite Hp. cbn.
        intros (_ & Hr & He). auto.
      * rewrite list_lookup_insert_ne in Ht' by exact Hne.
        exfalso. apply Hne. apply (synced_unique st i j t t' Hsync Ht Ht'). congruence.
    + intros j t' Ht' Hid.
      destruct (decide (i = j)) as [<- | Hne].
      * rewrite list_lookup_insert_eq in Ht' by (apply lookup_lt_Some in Ht; exact Ht).
        injection Ht' as <-. cbn in Hid. contradiction.
      * rewrite list_lookup_insert_ne in Ht' by exact Hne. exact Ht'.
  - destruct (background_tasks st !! i) as [t|] eqn:Ht; [|exact Hsync].
    destruct (task_phase t) eqn:Hp; try exact Hsync.
    destruct (Htasks i t Ht) as (job & Hjob & Hphase).
    unfold poll_payment_status_finish. rewrite Hjob.
    assert (Hmatch : forall job',
              (exists res, job' = set_updated_at now
                                    (set_result (Some res) (set_status COMPLETED job)))
              \/ (exists e, job' = set_updated_at now
                                     (set_error (Some (exn_str e)) (set_status FAILED job))) ->
              synced (MkState (<[ task_job_id t := job' ]> (jobs_db st))
                              (<[ i := set_phase Returned t ]> (background_tasks st)))).
    { intros job' Hjob'.
      apply (synced_update st _ job _ _ Hsync Hjob (fmap_insert_phase _ i t _ Ht)).
      - intros j t' Ht' Hid.
        destruct (decide (i = j)) as [<- | Hne].
        + rewrite list_lookup_insert_eq in Ht' by (apply lookup_lt_Some in Ht; exact Ht).
          injection Ht' as <-. revert Hphase. unfold phase_matches. rewrite Hp. cbn.
          intros (_ & Hr & He).
          destruct Hjob' as [[res ->] | [e ->]]; cbn; [left | right]; eauto.
        + rewrite list_lookup_insert_ne in Ht' by exact Hne.
          exfalso. apply Hne. apply (synced_unique st i j t t' Hsync Ht Ht'). congruence.
      - intros j t' Ht' Hid.
        destruct (decide (i = j)) as [<- | Hne].
        + rewrite list_lookup_insert_eq in Ht' by (apply lookup_lt_Some in Ht; exact Ht).
          injection Ht' as <-. cbn in Hid. contradiction.
        + rewrite list_lookup_insert_ne in Ht' by exact Hne. exact Ht'. }
    destruct (execute (task_agent t) (task_input_data t)) as [res|e];
      apply Hmatch; eauto.
Qed.

Lemma run_synced (evs : list Event) :
  forall st, synced st -> fresh_ids st evs -> synced (run st evs).
Proof.
  induction evs as [|ev evs IH]; intros st Hst Hfresh; [exact Hst|].
  destruct Hfresh as [Hev Hrest]. cbn [run fold_left].
  apply IH; [apply step_synced; assumption | exact Hrest].
Qed.

Lemma initial_synced : synced initial.
Proof.
  split; [|split].
  - constructor.
  - intros i t. cbn. rewrite lookup_nil. discriminate.
  - intros id job. cbn. rewrite lookup_empty. discriminate.
Qed.

End Synced.

Section Terminal.

Import JobSpec.

Lemma fresh_ids_app (evs evs' : list Event) :
  forall st, fresh_ids st (evs ++ evs') -> fresh_ids st evs /\ fresh_ids (run st evs) evs'.
Proof.
  induction evs as [|ev evs IH]; intros st H; [split; [exact I | exact H]|].
  destruct H as [Hev Hrest]. destruct (IH _ Hrest) as [H1 H2].
  split; [split; assumption | exact H2].
Qed.

Lemma run_app (evs evs' : list Event) (st : State) :
  run st (evs ++ evs') = run (run st evs) evs'.
Proof. apply fold_left_app. Qed.

(** A finished job is out of reach of every transition. *)
Lemma step_keeps_finished (st : State) (ev : Event) (id : string) (job : Job) :
  synced st -> fresh_event st ev ->
  jobs_db st !! id = Some job ->
  status job = COMPLETED \/ status job = FAILED ->
  jobs_db (step st ev) !! id = Some job.
Proof.
  intros (_ & Htasks & _) Hfresh Hjob Hfin.
  assert (Hnot : forall t i,
            background_tasks st !! i = Some t -> task_phase t <> Returned ->
            task_job_id t <> id).
  { intros t i Ht Hp Hid. destruct (Htasks i t Ht) as (job0 & Hjob0 & Hphase).
    rewrite Hid, Hjob in Hjob0. injection Hjob0 as <-.
    revert Hphase. unfold phase_matches.
    destruct (task_phase t); [| |contradiction];
      intros ([Hs | Hs] & _); destruct Hfin as [Hf | Hf]; congruence. }
  destruct ev as [app req id' pid now | id' now | id' add now | i now1 now2 | i now];
    cbn [step].
  - cbn [fresh_event] in Hfresh. unfold start_job.
    destruct (agent_config app !! req_agent_type req) as [config|]; [|exact Hjob].
    destruct (cfg_agent config); [|exact Hjob].
    cbn [snd jobs_db]. rewrite lookup_insert_ne; [exact Hjob | congruence].
  - unfold cancel_job. destruct (decide (id' = id)) as [-> | Hne].
    + rewrite Hjob. rewrite bool_decide_eq_true_2; [exact Hjob|].
      destruct Hfin as [-> | ->]; set_solver.
    + destruct (jobs_db st !! id'); [|exact Hjob].
      destruct (bool_decide _); [exact Hjob|].
      cbn [snd jobs_db]. rewrite lookup_insert_ne; [exact Hjob | exact Hne].
  - unfold provide_additional_input. destruct (decide (id' = id)) as [-> | Hne].
    + rewrite Hjob. rewrite bool_decide_eq_false_2; [exact Hjob|].
      intros Hin. destruct Hfin as [Hs | Hs]; rewrite Hs in Hin;
        repeat (apply elem_of_cons in Hin as [Hin | Hin]); try discriminate;
        inversion Hin.
    + destruct (jobs_db st !! id'); [|exact Hjob].
      destruct (bool_decide _); [|exact Hjob].
      cbn [snd jobs_db]. rewrite lookup_insert_ne; [exact Hjob | exact Hne].
  - destruct (background_tasks st !! i) as [t|] eqn:Ht; [|exact Hjob].
    destruct (task_phase t) eqn:Hp; try exact Hjob.
    assert (Hne : task_job_id t <> id) by (apply (Hnot t i Ht); congruence).
    unfold poll_payment_status_wake.
    destruct (jobs_db st !! task_job_id t); [|exact Hjob].
    cbn [jobs_db]. rewrite lookup_insert_ne; [exact Hjob | exact Hne].
  - destruct (background_tasks st !! i) as [t|] eqn:Ht; [|exact Hjob].
    destruct (task_phase t) eqn:Hp; try exact Hjob.
    assert (Hne : task_job_id t <> id) by (apply (Hnot t i Ht); congruence).
    unfold poll_payment_status_finish. cbn [jobs_db].
    destruct (jobs_db st !! task_job_id t); [|exact Hjob].
    destruct (execute _ _); rewrite lookup_insert_ne; try exact Hjob; exact Hne.
Qed.

Lemma run_keeps_finished (evs : list Event) :
  forall st id job,
    synced st -> fresh_ids st evs ->
    jobs_db st !! id = Some job ->
    status job = COMPLETED \/ status job = FAILED ->
    jobs_db (run st evs) !! id = Some job.
Proof.
  induction evs as [|ev evs IH]; intros st id job Hsync Hfresh Hjob Hfin; [exact Hjob|].
  destruct Hfresh as [Hev Hrest]. cbn [run fold_left].
  apply IH; [apply step_synced; assumption | exact Hrest | | exact Hfin].
  apply step_keeps_finished; assumption.
Qed.

End Terminal.

Import JobSpec.

(** X10: as long as job ids are not reused, in every reachable state a
    job has a result exactly when it is COMPLETED and an error exactly when
    it is FAILED; no job has both. *)
Theorem result_and_error_follow_status (evs : list Event) (id : string) (job : Job) :
  fresh_ids initial evs ->
  jobs_db (run initial evs) !! id = Some job ->
  (is_Some (result job) <-> status job = COMPLETED)
  /\ (is_Some (error job) <-> status job = FAILED)
  /\ ~ (is_Some (result job) /\ is_Some (error job)).
Proof.
  intros Hfresh Hjob.
  destruct (run_synced evs initial initial_synced Hfresh) as (_ & Htasks & Hjobs).
  destruct (Hjobs id job Hjob) as (i & t & Ht & Hid).
  destruct (Htasks i t Ht) as (job0 & Hjob0 & Hphase).
  rewrite Hid, Hjob in Hjob0. injection Hjob0 as <-.
  revert Hphase. unfold phase_matches. destruct (task_phase t).
  - intros ([Hs | Hs] & Hr & He); rewrite Hr, He, Hs;
      repeat split; try discriminate; try (intros [x Hx]; discriminate);
      intros [[x Hx] _]; discriminate.
  - intros ([Hs | Hs] & Hr & He); rewrite Hr, He, Hs;
      repeat split; try discriminate; try (intros [x Hx]; discriminate);
      intros [[x Hx] _]; discriminate.
  - intros [(Hs & Hr & He) | (Hs & He & Hr)]; rewrite Hs.
    + rewrite He. repeat split; auto; try discriminate;
        try (intros [x Hx]; discriminate). intros [_ [x Hx]]. discriminate.
    + rewrite Hr. repeat split; auto; try discriminate;
        try (intros [x Hx]; discriminate). intros [[x Hx] _]. discriminate.
Qed.

Lemma result_and_error_witness :
  exists job,
    jobs_db (run initial Examples.cancel_then_wake) !! "job-1" = Some job
    /\ status job = COMPLETED /\ error job = None.
Proof.
  eexists. split; [vm_compute; reflexivity|].
  destruct (result_and_error_follow_status Examples.cancel_then_wake "job-1" _
              ltac:(vm_compute; repeat split) eq_refl) as (Hres & _ & _).
  split; [|reflexivity]. apply Hres. eauto.
Defined.

(** X11: as long as job ids are not reused, COMPLETED and FAILED are
    final: once a job has one of the two, no later request and no monitor
    step changes any field of its record. *)
Theorem finished_jobs_never_change (evs evs' : list Event) (id : string) (job : Job) :
  fresh_ids initial (evs ++ evs') ->
  jobs_db (run initial evs) !! id = Some job ->
  status job = COMPLETED \/ status job = FAILED ->
  jobs_db (run initial (evs ++ evs')) !! id = Some job.
Proof.
  intros Hfresh Hjob Hfin. rewrite run_app.
  destruct (fresh_ids_app evs evs' initial Hfresh) as [H1 H2].
  apply run_keeps_finished; try assumption.
  apply run_synced; [apply initial_synced | exact H1].
Qed.

Lemma finished_jobs_witness :
  status <$> jobs_db (run initial (Examples.cancel_then_wake
                                    ++ [ECancelJob "job-1" 20;
                                        EProvideInput "job-1" ∅ 21])) !! "job-1"
  = Some COMPLETED.
Proof.
  assert (Hkept :
    jobs_db (run initial (Examples.cancel_then_wake
                          ++ [ECancelJob "job-1" 20; EProvideInput "job-1" ∅ 21]))
      !! "job-1"
    = Some (MkJob "job-1" "risk" COMPLETED "pay-1" "confirmed" ∅ None 10 13
              (Some (<[ "success"%string := PNum 1 ]> ∅)) None)).
  { apply finished_jobs_never_change.
    - vm_compute. repeat split.
    - vm_compute. reflexivity.
    - left. reflexivity. }
  rewrite Hkept. reflexivity.
Defined.

(** X12: the life of a paid job.  Whatever the state, a request that
    [start_job] accepts leaves the job in AWAITING_PAYMENT; the wake-up of
    its monitor moves it to IN_PROGRESS; the end of the agent call moves it
    to COMPLETED with the agent's answer as result, or to FAILED with the
    text of the agent's exception as error.  The job keeps its creation
    time and its input, and the monitor has returned. *)
Theorem paid_job_runs_to_completion
    (app : AppState) (req : StartJobRequest) (id pid : string)
    (now0 now1 now2 now3 : nat) (st : State) (config : AgentConfig) (agent : Agent) :
  agent_config app !! req_agent_type req = Some config ->
  cfg_agent config = Some agent ->
  let i := length (background_tasks st) in
  let st1 := step st (EStartJob app req id pid now0) in
  let st2 := step st1 (EWake i now1 now2) in
  let st3 := step st2 (EFinish i now3) in
  status_of st1 id = Some AWAITING_PAYMENT
  /\ status_of st2 id = Some IN_PROGRESS
  /\ exists job,
       jobs_db st3 !! id = Some job
       /\ created_at job = now0 /\ updated_at job = now3
       /\ payment_status job = "confirmed"%string
       /\ input_data job = req_input_data req
       /\ match execute agent (req_input_data req) with
          | Ok res => status job = COMPLETED /\ result job = Some res /\ error job = None
          | Raise e =>
              status job = FAILED /\ error job = Some (exn_str e) /\ result job = None
          end
       /\ task_phase <$> background_tasks st3 !! i = Some Returned.
Proof.
  intros Hc Ha i st1 st2 st3.
  set (job0 := MkJob id (req_agent_type req) AWAITING_PAYMENT pid "awaiting"
                 (req_input_data req) (req_identifier_from_purchaser req)
                 now0 now0 None None).
  set (task0 := MkTask id pid agent (req_input_data req) Sleeping).
  assert (H1 : st1 = MkState (<[ id := job0 ]> (jobs_db st))
                             (background_tasks st ++ [task0])).
  { unfold st1. cbn [step]. unfold start_job. rewrite Hc, Ha. reflexivity. }
  clearbody st1. subst st1.
  assert (Hi : (background_tasks st ++ [task0]) !! i = Some task0)
    by (apply list_lookup_middle; reflexivity).
  assert (Hlen : (i < length (background_tasks st ++ [task0]))%nat)
    by (apply lookup_lt_Some in Hi; exact Hi).
  split.
  { unfold status_of. cbn [jobs_db]. rewrite lookup_insert_eq. reflexivity. }
  set (job1 := MkJob id (req_agent_type req) IN_PROGRESS pid "confirmed"
                 (req_input_data req) (req_identifier_from_purchaser req)
                 now0 now2 None None).
  assert (H2 : st2 = MkState (<[ id := job1 ]> (<[ id := job0 ]> (jobs_db st)))
                             (<[ i := set_phase Executing task0 ]>
                                (background_tasks st ++ [task0]))).
  { unfold st2. cbn [step background_tasks jobs_db]. rewrite Hi.
    cbn [task_phase task_job_id task0].
    unfold poll_payment_status_wake. rewrite lookup_insert_eq. reflexivity. }
  clearbody st2. subst st2.
  split.
  { unfold status_of. cbn [jobs_db]. rewrite lookup_insert_eq. reflexivity. }
  unfold st3. cbn [step background_tasks jobs_db].
  rewrite list_lookup_insert_eq by exact Hlen.
  cbn [task_phase task_job_id task_agent task_input_data set_phase task0].
  unfold poll_payment_status_finish. rewrite lookup_insert_eq.
  destruct (execute agent (req_input_data req)) as [res|e];
    cbn [jobs_db background_tasks]; rewrite lookup_insert_eq;
    (eexists; split; [reflexivity|]); cbn;
    rewrite list_lookup_insert_eq by (rewrite length_insert; exact Hlen);
    auto 10.
Qed.

Lemma paid_job_witness :
  status_of (run initial [EStartJob Examples.app_all Examples.risk_request
                            "job-1" "pay-1" 10;
                          EWake 0 12 12; EFinish 0 13]) "job-1"
  = Some COMPLETED.
Proof.
  destruct (paid_job_runs_to_completion Examples.app_all Examples.risk_request
              "job-1" "pay-1" 10 12 12 13 initial
              (MkAgentConfig (Some Examples.answering_agent) (2 # 100)
                 "Risk Guardian Agent" "addr_test1risk_demo")
              Examples.answering_agent eq_refl eq_refl)
    as (_ & _ & job & Hjob & _ & _ & _ & _ & Hout & _).
  unfold status_of, run. cbn [fold_left]. cbn [length background_tasks initial] in Hjob.
  rewrite Hjob. cbn in Hout. destruct Hout as (Hs & _). cbn. rewrite Hs. reflexivity.
Defined.

(** ** Further properties: the ranges of the scores *)

Section Ranges.

Lemma round1_le (b : Z) (x : Q) : x <= inject_Z b / 10 -> round1 x <= inject_Z b / 10.
Proof.
  unfold round1, Qdiv. change (/ 10) with (1 # 10). intros Hb.
  assert (Hb' : (round_half_even (x * 10) <= b)%Z) by (apply round_half_even_le; lra).
  rewrite Zle_Qle in Hb'. lra.
Qed.

Lemma round1_range (a b : Z) (lo hi x : Q) :
  lo == inject_Z a / 10 -> hi == inject_Z b / 10 ->
  lo <= x <= hi -> lo <= round1 x <= hi.
Proof.
  intros Hlo Hhi Hx. rewrite Hlo, Hhi. apply round1_bounds.
  rewrite <- Hlo, <- Hhi. exact Hx.
Qed.

Lemma min2_le_r (a b : Q) : min2 a b <= b.
Proof. rewrite min2_Qmin. apply Q.le_min_r. Qed.

Lemma min2_ge (a b c : Q) : c <= a -> c <= b -> c <= min2 a b.
Proof. intros Ha Hb. rewrite min2_Qmin. apply Q.min_glb; assumption. Qed.



(** A sum of squares does not go below where it started, whatever the
    items are, as long as it is computed at all. *)
Lemma sum_squares_ge (l : list dict) :
  forall acc r,
    sum_with (fun alloc => pow2 (allocation_percent alloc)) acc l = Ok r -> acc <= r.
Proof.
  induction l as [|a l IH]; intros acc r.
  - cbn. intros [= <-]. lra.
  - cbn [sum_with]. destruct (allocation_percent a) as [|q|s]; cbn; try discriminate.
    intros H. apply IH in H. nra.
Qed.

Lemma concentration_risk_range (l : list dict) (r : Q) :
  _calculate_concentration_risk l = Ok r -> 0 <= r <= 100.
Proof.
  destruct l as [|a l]; [intros [= <-]; lra|].
  unfold _calculate_concentration_risk.
  destruct (max_from _ _); [|discriminate]. run_bind.
  destruct (sum_with _ 0 (a :: l)) as [hhi|] eqn:Hsum; [|discriminate].
  run_bind. intros [= <-]. apply sum_squares_ge in Hsum. split.
  - apply min2_ge; [|lra]. unfold Qdiv. change (/ 100) with (1 # 100). lra.
  - apply min2_le_r.
Qed.


End Ranges.



Section Liquidity.

Lemma position_liquidity_risk_range (pos : dict) (s : Q) :
  position_liquidity_risk pos = Ok s -> 15 <= s <= 70.
Proof.
  unfold position_liquidity_risk.
  destruct (get pos "tvl_ada" (PNum 0)) as [|tvl|]; cbn; try discriminate.
  destruct (get pos "volume_24h" (PNum 0)) as [|vol|]; cbn.
  1, 3: destruct (Qltb tvl 50000); cbn; try discriminate;
        destruct (Qltb tvl 100000); cbn; try discriminate;
        destruct (Qltb tvl 500000); cbn; discriminate.
  destruct (Qltb tvl 50000); [|destruct (Qltb tvl 100000);
                                [|destruct (Qltb tvl 500000)]];
    (destruct (Qltb vol 10000); [|destruct (Qltb vol 50000)]);
    cbn; intros [= <-]; split; vm_compute; discriminate.
Qed.

Lemma liquidity_scores_range (l : list dict) :
  forall ss, liquidity_scores l = Ok ss ->
             length ss = length l /\ Forall (fun s => 15 <= s <= 70) ss.
Proof.
  induction l as [|pos l IH]; intros ss.
  - cbn. intros [= <-]. auto.
  - cbn [liquidity_scores].
    destruct (position_liquidity_risk pos) as [s|] eqn:Hs; [|discriminate].
    destruct (liquidity_scores l) as [ss'|]; [|discriminate].
    run_bind. intros [= <-]. destruct (IH ss' eq_refl) as [Hlen Hall].
    split; [cbn; congruence|]. constructor; [|exact Hall].
    apply (position_liquidity_risk_range pos s Hs).
Qed.

Lemma liquidity_risk_range (l : list dict) (r : Q) :
  _calculate_liquidity_risk l = Ok r ->
  (l = [] /\ r = 0) \/ (l <> [] /\ 15 <= r <= 70).
Proof.
  destruct l as [|pos l]; [intros [= <-]; left; auto|].
  unfold _calculate_liquidity_risk.
  destruct (liquidity_scores (pos :: l)) as [ss|] eqn:Hss; [|discriminate].
  run_bind. destruct (liquidity_scores_range _ ss Hss) as [Hlen Hall].
  destruct ss as [|s ss]; [discriminate|].
  intros [= <-]. right. split; [discriminate|].
  apply average_bounds; [discriminate | exact Hall].
Qed.

Lemma position_liquidity_risk_total (pos : dict) :
  num_field "tvl_ada" pos = true -> num_field "volume_24h" pos = true ->
  exists s, position_liquidity_risk pos = Ok s.
Proof.
  intros Htvl Hvol. unfold position_liquidity_risk.
  rewrite (num_field_get "tvl_ada" pos 0 Htvl), (num_field_get "volume_24h" pos 0 Hvol).
  cbn [lt_num]. run_bind.
  repeat (match goal with
          | |- context [Qltb ?a ?b] => destruct (Qltb a b)
          end; cbn [bind]);
    eauto.
Qed.

Lemma liquidity_scores_total (l : list dict) :
  forallb (fun pos => num_field "tvl_ada" pos && num_field "volume_24h" pos) l = true ->
  exists ss, liquidity_scores l = Ok ss.
Proof.
  induction l as [|pos l IH]; intros H; [exists []; reflexivity|].
  cbn [forallb] in H. apply andb_prop in H as [Hpos Hl].
  apply andb_prop in Hpos as [Htvl Hvol].
  destruct (IH Hl) as (ss & Hss).
  destruct (position_liquidity_risk_total pos Htvl Hvol) as (s & Hs).
  cbn [liquidity_scores]. rewrite Hs, Hss. run_bind. eauto.
Qed.

End Liquidity.

(** X14: [_calculate_liquidity_risk] is 0 on the empty list and lies
    between 15 and 70 on every other list for which it returns; it returns
    on every list whose TVL and volume are numbers or absent, and a
    position that has neither counts as TVL 0 and volume 0, the riskiest
    tier of both, so that positions without data score 70. *)
Theorem liquidity_risk_in_range (l : list dict) :
  (forall r, _calculate_liquidity_risk l = Ok r ->
             (l = [] /\ r = 0) \/ (l <> [] /\ 15 <= r <= 70))
  /\ (forallb (fun pos => num_field "tvl_ada" pos && num_field "volume_24h" pos) l = true ->
      exists r, _calculate_liquidity_risk l = Ok r)
  /\ (l <> [] ->
      Forall (fun pos : dict => pos !! "tvl_ada" = None /\ pos !! "volume_24h" = None) l ->
      exists r, _calculate_liquidity_risk l = Ok r /\ r == 70).
Proof.
  split; [apply liquidity_risk_range|]. split.
  - intros H. destruct l as [|pos l]; [exists 0; reflexivity|].
    destruct (liquidity_scores_total _ H) as (ss & Hss).
    unfold _calculate_liquidity_risk. rewrite Hss. run_bind. destruct ss; eauto.
  - intros Hne Hnone.
    assert (Hss : exists ss, liquidity_scores l = Ok ss /\ length ss = length l
                             /\ Forall (fun s => s == 70) ss).
    { clear Hne. induction Hnone as [|pos l [Htvl Hvol] _ IH].
      - exists []. cbn. auto.
      - destruct IH as (ss & Hss & Hlen & Hall). cbn [liquidity_scores].
        unfold position_liquidity_risk, get. rewrite Htvl, Hvol. cbn. rewrite Hss.
        eexists. split; [reflexivity|]. split; [cbn; congruence|].
        constructor; [reflexivity | exact Hall]. }
    destruct Hss as (ss & Hss & Hlen & Hall).
    destruct l as [|pos l]; [congruence|].
    unfold _calculate_liquidity_risk. rewrite Hss. run_bind.
    destruct ss as [|s ss]; [discriminate|].
    eexists. split; [reflexivity|].
    pose proof (average_bounds 70 70 (s :: ss) ltac:(discriminate)
                  (Forall_Qeq_bounds 70 _ Hall)) as Hb.
    lra.
Qed.

Lemma liquidity_risk_witness :
  exists r, _calculate_liquidity_risk Examples.five_positions = Ok r /\ r == 70.
Proof.
  destruct (liquidity_risk_in_range Examples.five_positions) as (_ & _ & Hnone).
  apply Hnone; [discriminate|]. repeat constructor.
Defined.

(** X15: [analyze_portfolio_health] always returns a report.  Either the
    body went through, and then the report has no error, a health score
    between 15 and 100, sub-scores within 0..100 and 0..70, and the number
    of positions; or the body failed, and then the health score is 0 and
    the error text is set.  So a score of 0 always means a failure. *)
Theorem portfolio_health_score_or_failure (portfolio : Portfolio) :
  exists report,
    analyze_portfolio_health portfolio = Ok report
    /\ ((health_error report = None
         /\ 15 <= overall_health_score report <= 100
         /\ (exists c, health_concentration_risk report = Some c /\ 0 <= c <= 100)
         /\ (exists q, health_liquidity_risk report = Some q /\ 0 <= q <= 70)
         /\ num_positions report = Some (length (default [] (positions portfolio))))
        \/ (is_Some (health_error report)
            /\ overall_health_score report = 0
            /\ health_concentration_risk report = None
            /\ health_liquidity_risk report = None
            /\ exists e, analyze_portfolio_health_body portfolio = Raise e)).
Proof.
  unfold analyze_portfolio_health, analyze_portfolio_health_body.
  set (l := default [] (positions portfolio)).
  destruct (_calculate_concentration_risk l) as [c|e] eqn:Hc; run_bind;
    [|eexists; split; [reflexivity|]; right; cbn; eauto 10].
  destruct (_calculate_liquidity_risk l) as [q|e] eqn:Hq; run_bind;
    [|eexists; split; [reflexivity|]; right; cbn; eauto 10].
  destruct (sum_values 0 _) as [total|e]; run_bind;
    [|eexists; split; [reflexivity|]; right; cbn; eauto 10].
  eexists. split; [reflexivity|]. left. cbn.
  apply concentration_risk_range in Hc.
  assert (Hq' : 0 <= q <= 70).
  { apply liquidity_risk_range in Hq as [[_ ->] | [_ Hq]]; lra. }
  split; [reflexivity|]. split.
  - apply (round1_range 150 1000); [reflexivity | reflexivity | lra].
  - split; [|split; [|reflexivity]]; eexists; (split; [reflexivity|]).
    + apply (round1_range 0 1000); [reflexivity | reflexivity | exact Hc].
    + apply (round1_range 0 700); [reflexivity | reflexivity | exact Hq'].
Qed.

Lemma portfolio_health_witness :
  exists report,
    analyze_portfolio_health Examples.portfolio_text_tvl = Ok report
    /\ overall_health_score report = 0 /\ is_Some (health_error report).
Proof.
  destruct (portfolio_health_score_or_failure Examples.portfolio_text_tvl)
    as (report & Hr & [(Herr & _) | (Herr & Hzero & _)]).
  - exfalso. vm_compute in Hr. injection Hr as <-. discriminate Herr.
  - exists report. split; [exact Hr|]. split; assumption.
Defined.

Section Transactions.

(** The base rates are whole numbers between 25 and 50. *)
Lemma base_rate_values (p : string) :
  exists z : Z, base_rate p = inject_Z z /\ (25 <= z <= 50)%Z.
Proof.
  unfold base_rate, protocol_risk_ratings. cbn [list_to_map foldr uncurry fst snd].
  repeat (rewrite lookup_insert; case_decide;
          [eexists; split; [reflexivity | lia]|]).
  rewrite lookup_empty. exists 50%Z. split; [reflexivity | lia].
Qed.

Lemma round1_comp (x y : Q) : x == y -> round1 x = round1 y.
Proof.
  intros H. unfold round1, round_half_even.
  assert (Hf : Qfloor (x * 10) = Qfloor (y * 10)) by (rewrite H; reflexivity).
  rewrite Hf.
  assert (Hc : Qcompare (x * 10 - inject_Z (Qfloor (y * 10))) (1 # 2)
               = Qcompare (y * 10 - inject_Z (Qfloor (y * 10))) (1 # 2))
    by (rewrite H; reflexivity).
  rewrite Hc. reflexivity.
Qed.

(** The score that [validate_transaction_body] computes before rounding,
    from the base rate [z] and the two surcharges. *)
Lemma transaction_score_exact (z a b : Z) :
  round1 (30 + inject_Z z * (1 # 2) + inject_Z a + inject_Z b)
  == 30 + inject_Z z * (1 # 2) + inject_Z a + inject_Z b.
Proof.
  apply (round1_exact (300 + 5 * z + 10 * a + 10 * b)).
  rewrite !inject_Z_plus, !inject_Z_mult. field.
Qed.

Lemma validate_transaction_body_range (tx : dict) (v : Validation) :
  validate_transaction_body tx = Ok v ->
  425 # 10 <= risk_score v <= 90
  /\ (approved v = true <-> risk_score v <= 70)
  /\ (validation_warnings v = ["Large transaction amount"%string]
      \/ validation_warnings v = []).
Proof.
  unfold validate_transaction_body.
  destruct (lower (get tx "protocol" (PStr ""))) as [protocol|]; [|discriminate].
  run_bind. fold (base_rate protocol).
  destruct (base_rate_values protocol) as (z & -> & Hz).
  destruct (get tx "amount" (PNum 0)) as [|amount|]; cbn [gt_num]; run_bind;
    try discriminate.
  assert (Hzq : 25 <= inject_Z z <= 50).
  { change 25 with (inject_Z 25). change 50 with (inject_Z 50).
    rewrite <- !Zle_Qle. exact Hz. }
  assert (Hcase : forall (a b : Z) (w : list string) (score : Q),
            (0 <= a <= 20)%Z -> (0 <= b <= 15)%Z ->
            (w = ["Large transaction amount"%string] \/ w = []) ->
            score == 30 + inject_Z z * (1 # 2) + inject_Z a + inject_Z b ->
            425 # 10 <= round1 score <= 90
            /\ (Qle_bool score 70 = true <-> round1 score <= 70)
            /\ (w = ["Large transaction amount"%string] \/ w = [])).
  { intros a b w score Ha Hb Hw Hscore.
    assert (Haq : 0 <= inject_Z a <= 20).
    { change 0 with (inject_Z 0). change 20 with (inject_Z 20).
      rewrite <- !Zle_Qle. exact Ha. }
    assert (Hbq : 0 <= inject_Z b <= 15).
    { change 0 with (inject_Z 0). change 15 with (inject_Z 15).
      rewrite <- !Zle_Qle. exact Hb. }
    rewrite (round1_comp _ _ Hscore), transaction_score_exact, Qle_bool_iff, Hscore.
    split; [lra|]. split; [reflexivity | exact Hw]. }
  destruct (Qltb 100000 amount); cbn [bind];
    [|destruct (Qltb 50000 amount)];
    (destruct (eqb (get tx "type" (PStr "")) (PStr "swap")
               || eqb (get tx "type" (PStr "")) (PStr "add_liquidity"));
     [|destruct (eqb (get tx "type" (PStr "")) (PStr "lending_supply"))]);
    intros [= <-]; cbn [approved risk_score validation_warnings].
  - apply (Hcase 20%Z 10%Z); [lia | lia | auto | reflexivity].
  - apply (Hcase 20%Z 15%Z); [lia | lia | auto | reflexivity].
  - apply (Hcase 20%Z 0%Z); [lia | lia | auto | ring].
  - apply (Hcase 10%Z 10%Z); [lia | lia | auto | reflexivity].
  - apply (Hcase 10%Z 15%Z); [lia | lia | auto | reflexivity].
  - apply (Hcase 10%Z 0%Z); [lia | lia | auto | ring].
  - apply (Hcase 0%Z 10%Z); [lia | lia | auto | ring].
  - apply (Hcase 0%Z 15%Z); [lia | lia | auto | ring].
  - apply (Hcase 0%Z 0%Z); [lia | lia | auto | ring].
Qed.

End Transactions.

(** X16: [validate_transaction] always returns a payload.  When its body
    goes through, the reported [risk_score] is the exact score (rounding to
    one decimal changes nothing), it lies between 42.5 and 90, [approved]
    holds exactly when the reported score is at most 70, and the only
    possible warning is the one for a large amount; when the body fails,
    the payload is the rejection with score 100.  So a score of 100 is
    never the score of a transaction that was actually assessed. *)
Theorem validate_transaction_score_or_failure (tx : dict) :
  exists v,
    validate_transaction tx = Ok v
    /\ ((validate_transaction_body tx = Ok v
         /\ 425 # 10 <= risk_score v <= 90
         /\ (approved v = true <-> risk_score v <= 70)
         /\ (validation_warnings v = ["Large transaction amount"%string]
             \/ validation_warnings v = []))
        \/ ((exists e, validate_transaction_body tx = Raise e)
            /\ risk_score v = 100 /\ approved v = false)).
Proof.
  unfold validate_transaction.
  destruct (validate_transaction_body tx) as [v|e] eqn:Hbody.
  - exists v. split; [reflexivity|]. left. split; [reflexivity|].
    apply (validate_transaction_body_range tx v Hbody).
  - eexists. split; [reflexivity|]. right. cbn. eauto.
Qed.

Lemma validate_transaction_witness :
  exists v,
    validate_transaction
      (<[ "type"%string := PStr "swap" ]>
         (<[ "amount"%string := PNum 200000 ]>
            (<[ "protocol"%string := PStr "Minswap" ]> ∅))) = Ok v
    /\ approved v = false /\ 70 < risk_score v.
Proof.
  destruct (validate_transaction_score_or_failure
              (<[ "type"%string := PStr "swap" ]>
                 (<[ "amount"%string := PNum 200000 ]>
                    (<[ "protocol"%string := PStr "Minswap" ]> ∅))))
    as (v & Hv & [(_ & _ & Hiff & _) | ([e He] & _)]).
  - exists v. split; [exact Hv|].
    assert (Happ : approved v = false) by (vm_compute in Hv; injection Hv as <-; reflexivity).
    split; [exact Happ|]. apply Qnot_le_lt. intros Hle.
    apply Hiff in Hle. congruence.
  - vm_compute in He. discriminate He.
Defined.

Section ProtocolBounds.


End ProtocolBounds.



Section Recommendations.

Lemma when_elem (b : bool) (msg : string) : b = true -> msg ∈ when b msg.
Proof. intros ->. cbn. constructor. Qed.

End Recommendations.

(** X18: every assessment that [assess_strategy] rejects carries the
    recommendation to reduce the risk exposure, and every analysis that
    warns about concentration also recommends to diversify. *)
Theorem rejected_strategy_is_told_to_reduce_exposure
    (price : Q) (create_payment : string -> outcome RiskGuardian.Payment)
    (strategy : Strategy) (requester : option string) (r : RiskGuardian.Assessment) :
  RiskGuardian.assess_strategy price create_payment strategy requester = Ok r ->
  (RiskGuardian.approved r = false ->
     "Consider reducing risk exposure"%string
       ∈ recommendations (RiskGuardian.risk_analysis r))
  /\ ("High concentration risk: Portfolio not well diversified"%string
        ∈ warnings (RiskGuardian.risk_analysis r) ->
      "Increase diversification across protocols"%string
        ∈ recommendations (RiskGuardian.risk_analysis r)).
Proof.
  unfold RiskGuardian.assess_strategy.
  destruct (analyze_strategy strategy) as [analysis|] eqn:Han; [|discriminate].
  run_bind. intros Hr.
  assert (Hra : RiskGuardian.risk_analysis r = analysis
                /\ RiskGuardian.approved r = Qle_bool (overall_risk_score analysis) 70).
  { destruct (RiskGuardian.truthy requester).
    - destruct (create_payment _); [|discriminate]. cbn [bind] in Hr.
      injection Hr as <-. auto.
    - injection Hr as <-. auto. }
  destruct Hra as [-> ->]. clear Hr.
  revert Han. unfold analyze_strategy.
  destruct (_calculate_concentration_risk _) as [c|]; [|discriminate].
  destruct (_calculate_protocol_risk _) as [p|]; [|discriminate].
  destruct (_calculate_apr_risk _) as [a|]; [|discriminate].
  destruct (_calculate_diversification _) as [d|]; [|discriminate].
  run_bind. intros [= <-]. cbn [overall_risk_score recommendations warnings].
  split.
  - intros Hrej. apply elem_of_app. right. apply when_elem, Qltb_true.
    destruct (Qlt_le_dec 50 (overall_risk c p a)) as [Hlt | Hle]; [exact Hlt|].
    exfalso.
    assert (Hround : round1 (overall_risk c p a) <= 70).
    { apply Qle_trans with (inject_Z 500 / 10); [|vm_compute; discriminate].
      apply round1_le. apply Qle_trans with 50; [exact Hle | vm_compute; discriminate]. }
    apply Qle_bool_iff in Hround. congruence.
  - intros Hwarn. apply elem_of_app. left. apply when_elem, Qltb_true.
    destruct (Qltb 60 c) eqn:E.
    + apply Qltb_true in E. lra.
    + exfalso. cbn [when app] in Hwarn.
      apply elem_of_app in Hwarn as [Hw | Hw].
      * destruct (Qltb 50 p); cbn in Hw;
          repeat (apply elem_of_cons in Hw as [Hw | Hw]; [discriminate|]);
          inversion Hw.
      * destruct (Qltb 60 a); cbn in Hw;
          repeat (apply elem_of_cons in Hw as [Hw | Hw]; [discriminate|]);
          inversion Hw.
Qed.

Lemma rejected_strategy_witness :
  exists r,
    RiskGuardian.assess_strategy (2 # 100) (fun _ => Raise (MkExn RuntimeError "offline"))
      (MkStrategy None
         (Some [ <[ "risk_score"%string := PNum 100 ]>
                   (Examples.alloc_apr "unknown" 100 200) ])) None = Ok r
    /\ RiskGuardian.approved r = false
    /\ "Consider reducing risk exposure"%string
         ∈ recommendations (RiskGuardian.risk_analysis r).
Proof.
  eexists. split; [vm_compute; reflexivity|]. split; [reflexivity|].
  eapply (rejected_strategy_is_told_to_reduce_exposure (2 # 100)
            (fun _ => Raise (MkExn RuntimeError "offline"))
            (MkStrategy None
               (Some [ <[ "risk_score"%string := PNum 100 ]>
                         (Examples.alloc_apr "unknown" 100 200) ])) None).
  - vm_compute. reflexivity.
  - reflexivity.
Defined.

(** X19: a strategy without allocations (the key absent or the list
    empty) is analysed without error: every score is 0, there is no warning
    and no recommendation, and [assess_strategy] approves it. *)
Theorem empty_strategy_is_approved
    (price : Q) (create_payment : string -> outcome RiskGuardian.Payment)
    (strategy : Strategy) :
  default [] (recommended_allocations strategy) = [] ->
  exists analysis r,
    analyze_strategy strategy = Ok analysis
    /\ overall_risk_score analysis == 0 /\ concentration_risk analysis == 0
    /\ protocol_risk analysis == 0 /\ apr_risk analysis == 0
    /\ diversification_score analysis == 0
    /\ warnings analysis = [] /\ recommendations analysis = []
    /\ RiskGuardian.assess_strategy price create_payment strategy None = Ok r
    /\ RiskGuardian.approved r = true
    /\ RiskGuardian.risk_analysis r = analysis.
Proof.
  intros Hempty. unfold RiskGuardian.assess_strategy, analyze_strategy.
  rewrite Hempty. cbn [_calculate_concentration_risk _calculate_protocol_risk
                       _calculate_apr_risk _calculate_diversification].
  run_bind. cbn [RiskGuardian.truthy]. eexists. eexists.
  split; [reflexivity|]. cbn.
  repeat (split; [reflexivity|]). reflexivity.
Qed.

Lemma empty_strategy_witness :
  exists r,
    RiskGuardian.assess_strategy (2 # 100) (fun _ => Raise (MkExn RuntimeError "offline"))
      (MkStrategy (Some "s-1") None) None = Ok r
    /\ RiskGuardian.approved r = true.
Proof.
  destruct (empty_strategy_is_approved (2 # 100)
              (fun _ => Raise (MkExn RuntimeError "offline"))
              (MkStrategy (Some "s-1") None) eq_refl)
    as (analysis & r & _ & _ & _ & _ & _ & _ & _ & _ & Hr & Happ & _).
  exists r. split; assumption.
Defined.

(** X20: [monitor_portfolio] and the analyser's failure report.  When the
    body of [analyze_portfolio_health] fails, the analyser returns a report
    without the key "concentration_risk", and [monitor_portfolio] raises
    [KeyError] on it: the caller gets "'concentration_risk'" instead of the
    original error text.  When the body goes through, [monitor_portfolio]
    returns that report, "healthy" exactly when there is no alert, which is
    exactly when the concentration risk is at most 60 and the liquidity risk
    at most 50. *)
Theorem monitor_portfolio_alerts_or_key_error (portfolio : Portfolio) (user : string) :
  (forall e,
      analyze_portfolio_health_body portfolio = Raise e ->
      RiskGuardian.monitor_portfolio portfolio user
      = Raise (MkExn KeyError "'concentration_risk'"))
  /\ (forall report,
        analyze_portfolio_health_body portfolio = Ok report ->
        exists m c q,
          RiskGuardian.monitor_portfolio portfolio user = Ok m
          /\ RiskGuardian.health_report m = report
          /\ RiskGuardian.user_address m = user
          /\ health_concentration_risk report = Some c
          /\ health_liquidity_risk report = Some q
          /\ (RiskGuardian.overall_health m = "healthy"%string
              <-> RiskGuardian.alerts m = [])
          /\ (RiskGuardian.alerts m = [] <-> c <= 60 /\ q <= 50)
          /\ (length (RiskGuardian.alerts m) <= 2)%nat).
Proof.
  unfold RiskGuardian.monitor_portfolio, analyze_portfolio_health. split.
  - intros e ->. reflexivity.
  - intros report Hbody. rewrite Hbody. run_bind.
    revert Hbody. unfold analyze_portfolio_health_body.
    destruct (_calculate_concentration_risk _) as [c|]; [|discriminate].
    destruct (_calculate_liquidity_risk _) as [q|]; [|discriminate].
    destruct (sum_values 0 _) as [total|]; [|discriminate].
    run_bind. intros [= <-].
    cbn [health_concentration_risk health_liquidity_risk RiskGuardian.subscript].
    run_bind. eexists. exists (round1 c), (round1 q).
    split; [reflexivity|]. cbn.
    split; [reflexivity|]. split; [reflexivity|].
    split; [reflexivity|]. split; [reflexivity|].
    destruct (Qltb 60 (round1 c)) eqn:Ec; destruct (Qltb 50 (round1 q)) eqn:Eq; cbn.
    all: try apply Qltb_true in Ec; try apply Qltb_false in Ec.
    all: try apply Qltb_true in Eq; try apply Qltb_false in Eq.
    all: split; [split; [discriminate || reflexivity | discriminate || reflexivity]|].
    all: split; [|lia].
    all: split; [try discriminate; intros _; split; assumption|].
    all: try reflexivity.
    all: intros [Hc Hq]; exfalso; lra.
Qed.

Lemma monitor_portfolio_witness :
  RiskGuardian.monitor_portfolio Examples.portfolio_text_tvl "addr1"
  = Raise (MkExn KeyError "'concentration_risk'").
Proof.
  destruct (monitor_portfolio_alerts_or_key_error Examples.portfolio_text_tvl "addr1")
    as [Hfail _].
  eapply Hfail. vm_compute. reflexivity.
Defined.

Section Monotone.

Ltac ladder :=
  repeat match goal with
         | |- context [Qltb ?a ?b] =>
             let E := fresh "E" in
             destruct (Qltb a b) eqn:E;
             [apply Qltb_true in E | apply Qltb_false in E]; run_bind
         end.

Lemma apr_score_monotone (q1 q2 s1 s2 : Q) :
  q1 <= q2 -> apr_score (PNum q1) = Ok s1 -> apr_score (PNum q2) = Ok s2 -> s1 <= s2.
Proof.
  intros Hle. unfold apr_score. cbn [gt_num]. run_bind. ladder.
  all: intros H1 H2; inversion H1; inversion H2; subst.
  all: try (vm_compute; discriminate).
  all: exfalso; lra.
Qed.

Lemma position_liquidity_risk_antitone (tvl1 tvl2 vol1 vol2 s1 s2 : Q) (pos1 pos2 : dict) :
  pos1 !! "tvl_ada" = Some (PNum tvl1) -> pos1 !! "volume_24h" = Some (PNum vol1) ->
  pos2 !! "tvl_ada" = Some (PNum tvl2) -> pos2 !! "volume_24h" = Some (PNum vol2) ->
  tvl1 <= tvl2 -> vol1 <= vol2 ->
  position_liquidity_risk pos1 = Ok s1 -> position_liquidity_risk pos2 = Ok s2 ->
  s2 <= s1.
Proof.
  intros Ht1 Hv1 Ht2 Hv2 Htvl Hvol. unfold position_liquidity_risk, get.
  rewrite Ht1, Hv1, Ht2, Hv2. cbn [default from_option id lt_num]. run_bind. ladder.
  all: intros H1 H2; inversion H1; inversion H2; subst.
  all: try (vm_compute; discriminate).
  all: exfalso; lra.
Qed.

End Monotone.

Section MonotoneLists.

Lemma apr_scores_monotone (l1 l2 : list dict) :
  Forall2 (fun a b => num_field "expected_apr" a = true
                      /\ num_field "expected_apr" b = true
                      /\ apr_of a <= apr_of b) l1 l2 ->
  exists ss1 ss2,
    apr_scores l1 = Ok ss1 /\ apr_scores l2 = Ok ss2 /\ Forall2 Qle ss1 ss2.
Proof.
  induction 1 as [|a b l1 l2 (Ha & Hb & Hle) _ IH].
  - exists [], []. repeat split; constructor.
  - destruct IH as (ss1 & ss2 & H1 & H2 & Hall).
    cbn [apr_scores].
    rewrite (num_field_get "expected_apr" a 0 Ha), (num_field_get "expected_apr" b 0 Hb).
    destruct (apr_score_num (num_of "expected_apr" 0 a)) as (s1 & Hs1 & _).
    destruct (apr_score_num (num_of "expected_apr" 0 b)) as (s2 & Hs2 & _).
    rewrite Hs1, Hs2, H1, H2. run_bind.
    exists (s1 :: ss1), (s2 :: ss2). repeat split; try reflexivity.
    constructor; [|exact Hall].
    apply (apr_score_monotone _ _ s1 s2 Hle Hs1 Hs2).
Qed.

Lemma fold_left_Qplus_monotone (ss1 ss2 : list Q) :
  Forall2 Qle ss1 ss2 ->
  forall acc1 acc2, acc1 <= acc2 ->
    fold_left Qplus ss1 acc1 <= fold_left Qplus ss2 acc2.
Proof.
  induction 1 as [|s1 s2 ss1 ss2 Hs _ IH]; intros acc1 acc2 Hacc; [exact Hacc|].
  cbn [fold_left]. apply IH. lra.
Qed.

End MonotoneLists.

(** X21: the APR risk is monotone: of two strategies with the same number
    of allocations, the one whose APRs are position by position at least as
    high never gets the lower APR risk. *)
Theorem apr_risk_is_monotone (l1 l2 : list dict) :
  Forall2 (fun a b => num_field "expected_apr" a = true
                      /\ num_field "expected_apr" b = true
                      /\ apr_of a <= apr_of b) l1 l2 ->
  exists r1 r2,
    _calculate_apr_risk l1 = Ok r1 /\ _calculate_apr_risk l2 = Ok r2 /\ r1 <= r2.
Proof.
  intros H. pose proof (Forall2_length _ _ _ H) as Hlen.
  destruct (apr_scores_monotone l1 l2 H) as (ss1 & ss2 & H1 & H2 & Hall).
  pose proof (Forall2_length _ _ _ Hall) as Hlens.
  unfold _calculate_apr_risk. rewrite H1, H2.
  destruct l1 as [|a l1]; destruct l2 as [|b l2]; try discriminate.
  - exists 0, 0. repeat split; try reflexivity. lra.
  - run_bind. destruct ss1 as [|s1 ss1]; destruct ss2 as [|s2 ss2]; try discriminate.
    + cbn in H1. destruct (apr_score _); [|discriminate].
      destruct (apr_scores l1); discriminate.
    + eexists. eexists. split; [reflexivity|]. split; [reflexivity|].
      assert (Hl : len (s1 :: ss1) = len (s2 :: ss2)) by (unfold len; rewrite Hlens; reflexivity).
      rewrite Hl. pose proof (len_pos (s2 :: ss2) ltac:(discriminate)) as Hpos.
      pose proof (fold_left_Qplus_monotone _ _ Hall 0 0 ltac:(lra)) as Hsum.
      unfold sum_list. apply Qle_shift_div_l; [exact Hpos|].
      unfold Qdiv. rewrite <- Qmult_assoc, (Qmult_comm (/ _)), Qmult_inv_r, Qmult_1_r
        by lra.
      exact Hsum.
Qed.

Lemma apr_risk_is_monotone_witness :
  exists r1 r2,
    _calculate_apr_risk Examples.scenario_allocations = Ok r1
    /\ _calculate_apr_risk
         [Examples.alloc_apr "minswap" 60 120; Examples.alloc_apr "liqwid" 40 8] = Ok r2
    /\ r1 <= r2.
Proof.
  apply apr_risk_is_monotone.
  repeat constructor; vm_compute; discriminate.
Defined.

(** X22: the liquidity score of a position is antitone: a position with
    at least as much TVL and at least as much 24h volume as another never
    scores the higher liquidity risk. *)
Theorem liquidity_risk_is_antitone
    (tvl1 tvl2 vol1 vol2 : Q) (pos1 pos2 : dict) :
  pos1 !! "tvl_ada" = Some (PNum tvl1) -> pos1 !! "volume_24h" = Some (PNum vol1) ->
  pos2 !! "tvl_ada" = Some (PNum tvl2) -> pos2 !! "volume_24h" = Some (PNum vol2) ->
  tvl1 <= tvl2 -> vol1 <= vol2 ->
  exists s1 s2,
    position_liquidity_risk pos1 = Ok s1 /\ position_liquidity_risk pos2 = Ok s2
    /\ s2 <= s1.
Proof.
  intros Ht1 Hv1 Ht2 Hv2 Htvl Hvol.
  assert (Hn : forall (pos : dict) t v,
            pos !! "tvl_ada" = Some (PNum t) -> pos !! "volume_24h" = Some (PNum v) ->
            exists s, position_liquidity_risk pos = Ok s).
  { intros pos t v Ht Hv. apply position_liquidity_risk_total; unfold num_field.
    - rewrite Ht. reflexivity.
    - rewrite Hv. reflexivity. }
  destruct (Hn pos1 _ _ Ht1 Hv1) as (s1 & Hs1).
  destruct (Hn pos2 _ _ Ht2 Hv2) as (s2 & Hs2).
  exists s1, s2. split; [exact Hs1|]. split; [exact Hs2|].
  apply (position_liquidity_risk_antitone tvl1 tvl2 vol1 vol2 s1 s2 pos1 pos2);
    assumption.
Qed.

Lemma liquidity_risk_is_antitone_witness :
  exists s1 s2,
    position_liquidity_risk
      (<[ "tvl_ada"%string := PNum 60000 ]> (<[ "volume_24h"%string := PNum 5000 ]> ∅))
    = Ok s1
    /\ position_liquidity_risk
         (<[ "tvl_ada"%string := PNum 600000 ]> (<[ "volume_24h"%string := PNum 50000 ]> ∅))
       = Ok s2
    /\ s2 <= s1.
Proof.
  apply (liquidity_risk_is_antitone 60000 600000 5000 50000);
    try reflexivity; vm_compute; discriminate.
Defined.
